(** * QT-Download-Manager: the download worker and the start-up recovery

    A shallow embedding of [Downloader] (downloader.h / Downloader.cpp) and of
    the progress lambda and [loadUnfinishedDownloads] of Main.cpp, followed by
    the properties of the specification that concern them.

    The Qt objects the code touches are modelled by what the code observes of
    them: a file system holding the two directories the program uses, [QFile]
    handles with their open flag, the network reply with its unread buffer,
    the non-recursive [QMutex] of the worker, and the list of emitted
    signals. *)

From Stdlib Require Import ZArith String Ascii List Bool Lia DecimalString.
From stdpp Require Import base option gmap strings.

Open Scope Z_scope.

(** ** Qt strings *)

Module QString.

Definition nl : string := String (ascii_of_nat 10) EmptyString.

(** [QString::startsWith]. *)
Definition startsWith (s p : string) : bool := String.prefix p s.

(** [QString::section(":", 1)]: the fields after the first separator,
    joined again, that is everything behind the first colon (empty when
    the string has no colon). *)
Fixpoint section_colon_1 (s : string) : string :=
  match s with
  | EmptyString => EmptyString
  | String c r => if Ascii.eqb c ":" then r else section_colon_1 r
  end.

(** [QChar::isSpace] on the ASCII range: space, \t, \n, \v, \f, \r. *)
Definition isSpace (c : ascii) : bool :=
  let n := nat_of_ascii c in
  (Nat.eqb n 32 || (Nat.leb 9 n && Nat.leb n 13))%bool.

Fixpoint trim_left (s : string) : string :=
  match s with
  | EmptyString => EmptyString
  | String c r => if isSpace c then trim_left r else s
  end.

(** Drops the trailing white space: a character is kept when it is not a
    space or when something is kept behind it. *)
Fixpoint trim_right (s : string) : string :=
  match s with
  | EmptyString => EmptyString
  | String c r =>
      match trim_right r with
      | EmptyString => if isSpace c then EmptyString else String c EmptyString
      | r' => String c r'
      end
  end.

(** [QString::trimmed]. *)
Definition trimmed (s : string) : string := trim_right (trim_left s).

(** [QString::number] / [QByteArray::number] / [QTextStream << qint64]:
    the decimal text of a 64-bit integer. *)
Definition number (n : Z) : string := NilZero.string_of_int (Z.to_int n).

Definition digit (c : ascii) : option Z :=
  let n := nat_of_ascii c in
  if (Nat.leb 48 n && Nat.leb n 57)%bool then Some (Z.of_nat n - 48) else None.

(** Value of a run of decimal digits; [None] when the run holds anything
    else. *)
Fixpoint digits (acc : Z) (s : string) : option Z :=
  match s with
  | EmptyString => Some acc
  | String c r =>
      match digit c with
      | Some d => digits (10 * acc + d) r
      | None => None
      end
  end.

Definition qint64_min : Z := - 2 ^ 63.
Definition qint64_max : Z := 2 ^ 63 - 1.

(** [QString::toLongLong]: an optional sign and decimal digits, the whole
    string; 0 when the string is not such a number or the value does not fit
    a qint64. *)
Definition toLongLong (s : string) : Z :=
  let parsed :=
    match s with
    | String "-" (String c r) => Z.opp <$> digits 0 (String c r)
    | String "+" (String c r) => digits 0 (String c r)
    | String c r => digits 0 (String c r)
    | EmptyString => None
    end in
  match parsed with
  | Some v => if ((qint64_min <=? v) && (v <=? qint64_max))%bool then v else 0
  | None => 0
  end.

(** The lines [QTextStream::readLine] returns until [atEnd]: the text is cut
    at each newline and a text ending in a newline has no further line. *)
Fixpoint lines_from (cur : string) (s : string) : list string :=
  match s with
  | EmptyString =>
      match cur with EmptyString => [] | _ => [cur] end
  | String c r =>
      if Ascii.eqb c (ascii_of_nat 10)
      then cur :: lines_from EmptyString r
      else lines_from (cur +:+ String c EmptyString) r
  end.

Definition lines (s : string) : list string := lines_from EmptyString s.

Definition isEmpty (s : string) : bool :=
  match s with EmptyString => true | _ => false end.

(** The pieces [QString::split(",")] cuts a string into: one more than it
    has commas, empty ones included. *)
Fixpoint pieces_from (cur : string) (s : string) : list string :=
  match s with
  | EmptyString => [cur]
  | String c r =>
      if Ascii.eqb c ","
      then cur :: pieces_from EmptyString r
      else pieces_from (cur +:+ String c EmptyString) r
  end.

(** [QString::split(",", QString::SkipEmptyParts)]. *)
Definition split_comma_skipEmpty (s : string) : list string :=
  List.filter (fun p => negb (isEmpty p)) (pieces_from EmptyString s).

(** No character of [s] is [c]. *)
Fixpoint lacks (c : ascii) (s : string) : bool :=
  match s with
  | EmptyString => true
  | String a r => (negb (Ascii.eqb a c) && lacks c r)%bool
  end.

(** [s] fits on one line of a text stream. *)
Definition oneLine (s : string) : bool := lacks (ascii_of_nat 10) s.

End QString.

(** ** [QUrl::fileName] *)

Module QUrl.

Fixpoint until (stop : ascii -> bool) (s : string) : string :=
  match s with
  | EmptyString => EmptyString
  | String c r => if stop c then EmptyString else String c (until stop r)
  end.

(** What stands behind the first "//", if there is one. *)
Fixpoint after_slashes (s : string) : option string :=
  match s with
  | String "/" (String "/" r) => Some r
  | String _ r => after_slashes r
  | EmptyString => None
  end.

(** From the first '/' on (the path behind the authority). *)
Fixpoint from_slash (s : string) : string :=
  match s with
  | EmptyString => EmptyString
  | String c r => if Ascii.eqb c "/" then s else from_slash r
  end.

Fixpoint after_last_slash (cur : string) (s : string) : string :=
  match s with
  | EmptyString => cur
  | String c r =>
      if Ascii.eqb c "/" then after_last_slash EmptyString r
      else after_last_slash (cur +:+ String c EmptyString) r
  end.

(** The path of a hierarchical URL: query and fragment cut off, scheme and
    authority dropped.  Percent-decoding is not modelled. *)
Definition path (url : string) : string :=
  let u := until (fun c => (Ascii.eqb c "?" || Ascii.eqb c "#")%bool) url in
  match after_slashes u with
  | Some r => from_slash r
  | None => u
  end.

(** [QUrl::fileName]: the part of the path behind its last '/'. *)
Definition fileName (url : string) : string :=
  after_last_slash EmptyString (path url).

End QUrl.

(** ** Files *)

(** The file system as the program sees it: the home directory and, for each
    directory that exists, its regular files with their bytes.  Permissions
    and full disks are outside the model: opening for writing fails only
    where the directory is missing, the name is empty or the handle is
    already open. *)
Record FileSystem := mkFS {
  homePath : string;
  dirs : gmap string (gmap string string)
}.

Definition set_dirs (d : gmap string (gmap string string)) (fs : FileSystem) : FileSystem :=
  {| homePath := homePath fs; dirs := d |}.

Module QDir.

Definition exists_ (dir : string) (fs : FileSystem) : bool :=
  bool_decide (is_Some (dirs fs !! dir)).

(** [QDir::mkpath(".")]. *)
Definition mkpath (dir : string) (fs : FileSystem) : FileSystem :=
  match dirs fs !! dir with
  | Some _ => fs
  | None => set_dirs (<[dir := ∅]> (dirs fs)) fs
  end.

(** A hidden file: on Unix, one whose name starts with a dot. *)
Definition hidden (name : string) : bool := String.prefix "." name.

(** [QDir::entryList(QDir::Files)]: the files of the directory that are not
    hidden ([QDir::Hidden] is not among the filters); the order of the names
    is the map's. *)
Definition entryList (dir : string) (fs : FileSystem) : list string :=
  match dirs fs !! dir with
  | Some files => List.filter (fun n => negb (hidden n)) (map_to_list files).*1
  | None => []
  end.

End QDir.

(** A [QFile] object: the path it was constructed with, as directory and
    name, and whether it is open. *)
Record QFile := mkQFile {
  dir : string;
  name : string;
  isOpen : bool
}.

Module QFile.

Definition new (d n : string) : QFile :=
  {| dir := d; name := n; isOpen := false |}.

(** [QFile::fileName]. *)
Definition fileName (f : QFile) : string := dir f +:+ "/" +:+ name f.

Definition read (d n : string) (fs : FileSystem) : option string :=
  dirs fs !! d ≫= (.!! n).

(** The static [QFile::exists(path)]. *)
Definition exists_ (d n : string) (fs : FileSystem) : bool :=
  bool_decide (is_Some (read d n fs)).

Definition put (d n : string) (data : string) (fs : FileSystem) : FileSystem :=
  match dirs fs !! d with
  | Some files => set_dirs (<[d := <[n := data]> files]> (dirs fs)) fs
  | None => fs
  end.

(** [open(QIODevice::WriteOnly)], with or without [Text]: refused on a
    handle that is already open; otherwise the file is created or
    truncated to length 0. *)
Definition open_WriteOnly (f : QFile) (fs : FileSystem) : option (QFile * FileSystem) :=
  if isOpen f then None
  else if QString.isEmpty (name f) then None
  else if QDir.exists_ (dir f) fs
       then Some ({| dir := dir f; name := name f; isOpen := true |},
                  put (dir f) (name f) EmptyString fs)
       else None.

(** [write] on a handle opened by [open_WriteOnly]: the bytes go behind
    what the handle has written so far. *)
Definition write (f : QFile) (data : string) (fs : FileSystem) : FileSystem :=
  match read (dir f) (name f) fs with
  | Some old => put (dir f) (name f) (old +:+ data) fs
  | None => fs
  end.

Definition close (f : QFile) : QFile :=
  {| dir := dir f; name := name f; isOpen := false |}.

(** [QFile::size]. *)
Definition size (f : QFile) (fs : FileSystem) : Z :=
  match read (dir f) (name f) fs with
  | Some data => Z.of_nat (String.length data)
  | None => 0
  end.

(** The static [QFile::remove(path)]. *)
Definition remove (d n : string) (fs : FileSystem) : FileSystem :=
  match dirs fs !! d with
  | Some files => set_dirs (<[d := delete n files]> (dirs fs)) fs
  | None => fs
  end.

End QFile.

(** ** Network *)

Record QNetworkRequest := mkRequest {
  url : string;
  rawHeaders : list (string * string)
}.

(** A reply: its error ([None] is [QNetworkReply::NoError], otherwise the
    error string), the bytes received and not yet read, the Content-Length
    header when the server sent one, and how often each of its two signals is
    connected to the worker's slots. *)
Record QNetworkReply := mkReply {
  error : option string;
  unread : string;
  contentLength : option Z;
  progressConnected : nat;
  finishedConnected : nat;
  deleteLaterPosted : bool
}.

Module QNetworkReply.

Definition fresh : QNetworkReply :=
  {| error := None; unread := EmptyString; contentLength := None;
     progressConnected := 0; finishedConnected := 0;
     deleteLaterPosted := false |}.

Definition connectSlots (r : QNetworkReply) : QNetworkReply :=
  {| error := error r; unread := unread r; contentLength := contentLength r;
     progressConnected := S (progressConnected r);
     finishedConnected := S (finishedConnected r);
     deleteLaterPosted := deleteLaterPosted r |}.

Definition disconnectSlots (r : QNetworkReply) : QNetworkReply :=
  {| error := error r; unread := unread r; contentLength := contentLength r;
     progressConnected := 0; finishedConnected := 0;
     deleteLaterPosted := deleteLaterPosted r |}.

(** [abort]: the transfer ends with the operation-cancelled error. *)
Definition abort (r : QNetworkReply) : QNetworkReply :=
  {| error := Some "Operation canceled"%string; unread := unread r;
     contentLength := contentLength r;
     progressConnected := progressConnected r;
     finishedConnected := finishedConnected r;
     deleteLaterPosted := deleteLaterPosted r |}.

(** [readAll] returns the unread bytes and leaves none. *)
Definition drained (r : QNetworkReply) : QNetworkReply :=
  {| error := error r; unread := EmptyString; contentLength := contentLength r;
     progressConnected := progressConnected r;
     finishedConnected := finishedConnected r;
     deleteLaterPosted := deleteLaterPosted r |}.

Definition deleteLater (r : QNetworkReply) : QNetworkReply :=
  {| error := error r; unread := unread r; contentLength := contentLength r;
     progressConnected := progressConnected r;
     finishedConnected := finishedConnected r;
     deleteLaterPosted := true |}.

(** [header(ContentLengthHeader).toLongLong()]: 0 for a missing header. *)
Definition contentLengthHeader (r : QNetworkReply) : Z :=
  default 0 (contentLength r).

End QNetworkReply.

(** ** The worker and its world *)

Inductive Signal :=
| downloadFinished (filePath : string)
| downloadFailed (reason : string)
| downloadProgress (bytesReceived bytesTotal : Z)
| pauseResumeStatusChanged (paused : bool).

(** The members of [class Downloader]; [mutex] is true while the [QMutex] is
    held. *)
Record Downloader := mkDownloader {
  downloadUrl : string;
  reply : option QNetworkReply;
  file : option QFile;
  progressFile : option QFile;
  downloadedBytes : Z;
  mutex : bool;
  paused : bool
}.

(** The worker together with what it acts on: the file system, the GET
    requests handed to the network manager so far, and the signals emitted so
    far, oldest first. *)
Record World := mkWorld {
  self : Downloader;
  fs : FileSystem;
  sent : list QNetworkRequest;
  emitted : list Signal
}.

(** How a call ends: it returns, it blocks for ever on the mutex, or it
    dereferences a null pointer.  Each carries the world as it is then. *)
Inductive Outcome :=
| Returned (w : World)
| Deadlock (w : World)
| NullDeref (w : World).

Definition world_of (o : Outcome) : World :=
  match o with Returned w | Deadlock w | NullDeref w => w end.

Definition andThen (o : Outcome) (k : World -> Outcome) : Outcome :=
  match o with
  | Returned w => k w
  | _ => o
  end.

Section Updates.

Definition with_self (f : Downloader -> Downloader) (w : World) : World :=
  {| self := f (self w); fs := fs w; sent := sent w; emitted := emitted w |}.

Definition with_fs (f : FileSystem -> FileSystem) (w : World) : World :=
  {| self := self w; fs := f (fs w); sent := sent w; emitted := emitted w |}.

Definition emit (s : Signal) (w : World) : World :=
  {| self := self w; fs := fs w; sent := sent w; emitted := emitted w ++ [s] |}.

Definition send (r : QNetworkRequest) (w : World) : World :=
  {| self := self w; fs := fs w; sent := sent w ++ [r]; emitted := emitted w |}.

Definition set_reply (r : option QNetworkReply) (d : Downloader) : Downloader :=
  {| downloadUrl := downloadUrl d; reply := r; file := file d;
     progressFile := progressFile d; downloadedBytes := downloadedBytes d;
     mutex := mutex d; paused := paused d |}.

Definition set_file (f : option QFile) (d : Downloader) : Downloader :=
  {| downloadUrl := downloadUrl d; reply := reply d; file := f;
     progressFile := progressFile d; downloadedBytes := downloadedBytes d;
     mutex := mutex d; paused := paused d |}.

Definition set_progressFile (f : option QFile) (d : Downloader) : Downloader :=
  {| downloadUrl := downloadUrl d; reply := reply d; file := file d;
     progressFile := f; downloadedBytes := downloadedBytes d;
     mutex := mutex d; paused := paused d |}.

Definition set_downloadedBytes (n : Z) (d : Downloader) : Downloader :=
  {| downloadUrl := downloadUrl d; reply := reply d; file := file d;
     progressFile := progressFile d; downloadedBytes := n;
     mutex := mutex d; paused := paused d |}.

Definition set_mutex (b : bool) (d : Downloader) : Downloader :=
  {| downloadUrl := downloadUrl d; reply := reply d; file := file d;
     progressFile := progressFile d; downloadedBytes := downloadedBytes d;
     mutex := b; paused := paused d |}.

Definition set_paused (b : bool) (d : Downloader) : Downloader :=
  {| downloadUrl := downloadUrl d; reply := reply d; file := file d;
     progressFile := progressFile d; downloadedBytes := downloadedBytes d;
     mutex := mutex d; paused := b |}.

End Updates.

Definition set_fs (f : FileSystem) (w : World) : World :=
  {| self := self w; fs := f; sent := sent w; emitted := emitted w |}.

(** ** Downloader.cpp *)

Module Downloader.

Import QString.

(** The constructor's member initialisers. *)
Definition new (u : string) : Downloader :=
  {| downloadUrl := u; reply := None; file := None; progressFile := None;
     downloadedBytes := 0; mutex := false; paused := false |}.

(** [QMutexLocker locker(&mutex);] at the head of a method, with the rest
    of the method as [body].  [QMutex] is not recursive: locking it while
    it is held, also by the calling thread itself, blocks for ever.  The
    locker releases the mutex when the method returns. *)
Definition locked (body : World -> Outcome) (w : World) : Outcome :=
  if mutex (self w) then Deadlock w
  else match body (with_self (set_mutex true) w) with
       | Returned w' => Returned (with_self (set_mutex false) w')
       | o => o
       end.

Definition downloadsDir (w : World) : string := homePath (fs w) +:+ "/qt_downloads".
Definition progressDir (w : World) : string := homePath (fs w) +:+ "/progress".
Definition progressName (w : World) : string :=
  QUrl.fileName (downloadUrl (self w)) +:+ ".progress".

(** The three lines every writer of the progress file streams out;
    [downloaded] is what the writer puts behind "Downloaded: ". *)
Definition recordText (u downloaded status : string) : string :=
  "Download URL: " +:+ u +:+ nl +:+
  "Downloaded: " +:+ downloaded +:+ nl +:+
  "Status: " +:+ status +:+ nl.

(** [<< received << " / " << total]. *)
Definition outOf (received total : Z) : string :=
  number received +:+ " / " +:+ number total.

(** [if (!progressDir.exists()) progressDir.mkpath(".");] *)
Definition ensureProgressDir (w : World) : World :=
  if QDir.exists_ (progressDir w) (fs w) then w
  else set_fs (QDir.mkpath (progressDir w) (fs w)) w.

(** [if (progressFile && progressFile->open(WriteOnly | Text)) { stream <<
    text; progressFile->close(); }]: the world after the block, or [None]
    when the condition is false. *)
Definition rewriteProgressFile (text : string) (w : World) : option World :=
  match progressFile (self w) with
  | Some pf =>
      match QFile.open_WriteOnly pf (fs w) with
      | Some (pf', fs') =>
          Some (set_fs (QFile.write pf' text fs')
                  (with_self (set_progressFile (Some (QFile.close pf'))) w))
      | None => None
      end
  | None => None
  end.

(** [if (file->open(WriteOnly)) { file->write(reply->readAll());
    file->close(); }] *)
Definition writeReplyToFile (w : World) : Outcome :=
  match file (self w) with
  | None => NullDeref w
  | Some f =>
      match QFile.open_WriteOnly f (fs w) with
      | Some (f', fs') =>
          match reply (self w) with
          | None => NullDeref (set_fs fs' (with_self (set_file (Some f')) w))
          | Some r =>
              Returned
                (set_fs (QFile.write f' (unread r) fs')
                   (with_self (set_reply (Some (QNetworkReply.drained r)))
                      (with_self (set_file (Some (QFile.close f'))) w)))
          end
      | None => Returned w
      end
  end.

Definition createProgressFile : World -> Outcome :=
  locked (fun w =>
    let w := ensureProgressDir w in
    let pf := QFile.new (progressDir w) (progressName w) in
    let w := with_self (set_progressFile (Some pf)) w in
    match QFile.open_WriteOnly pf (fs w) with
    | Some (pf', fs') =>
        Returned
          (set_fs (QFile.write pf' (recordText (downloadUrl (self w)) "0" "in-progress") fs')
             (with_self (set_progressFile (Some (QFile.close pf'))) w))
    | None => Returned w
    end).

Definition updateProgressFile (bytesReceived bytesTotal : Z) : World -> Outcome :=
  locked (fun w =>
    Returned
      (default w
         (rewriteProgressFile
            (recordText (downloadUrl (self w)) (outOf bytesReceived bytesTotal) "in-progress")
            w))).

Definition startDownload : World -> Outcome :=
  locked (fun w =>
    let u := downloadUrl (self w) in
    let f := QFile.new (downloadsDir w) (QUrl.fileName u) in
    let w := with_self (set_file (Some f)) w in
    match QFile.open_WriteOnly f (fs w) with
    | None => Returned (emit (downloadFailed "Failed to open file for writing.") w)
    | Some (f', fs') =>
        let w := set_fs fs' (with_self (set_file (Some f')) w) in
        let w := ensureProgressDir w in
        andThen
          (if QFile.exists_ (progressDir w) (progressName w) (fs w)
           then Returned w
           else createProgressFile w)
          (fun w =>
             let w := with_self (set_downloadedBytes (QFile.size f' (fs w))) w in
             let request :=
               {| url := u;
                  rawHeaders :=
                    [("Range"%string,
                      "bytes=" +:+ number (downloadedBytes (self w)) +:+ "-")] |} in
             let w := send request w in
             Returned
               (with_self
                  (set_reply (Some (QNetworkReply.connectSlots QNetworkReply.fresh))) w))
    end).

Definition pauseDownload : World -> Outcome :=
  locked (fun w =>
    match paused (self w), reply (self w) with
    | false, Some r =>
        let w := with_self (set_paused true) w in
        let r := QNetworkReply.abort (QNetworkReply.disconnectSlots r) in
        let w := with_self (set_reply (Some r)) w in
        let totalBytes := QNetworkReply.contentLengthHeader r in
        let w :=
          default w
            (rewriteProgressFile
               (recordText (downloadUrl (self w))
                  (outOf (downloadedBytes (self w)) totalBytes) "paused")
               w) in
        Returned (emit (pauseResumeStatusChanged true) w)
    | _, _ => Returned w
    end).

Definition resumeDownload : World -> Outcome :=
  locked (fun w =>
    if paused (self w) then
      let w := with_self (set_paused false) w in
      let w :=
        with_self (fun d => set_reply (QNetworkReply.connectSlots <$> reply d) d) w in
      andThen (startDownload w)
        (fun w => Returned (emit (pauseResumeStatusChanged false) w))
    else Returned w).

Definition onDownloadFinished : World -> Outcome :=
  locked (fun w =>
    match reply (self w) with
    | None => NullDeref w
    | Some r =>
        andThen
          (match error r with
           | None =>
               andThen (writeReplyToFile w)
                 (fun w =>
                    let w :=
                      match
                        rewriteProgressFile
                          (recordText (downloadUrl (self w))
                             (outOf (downloadedBytes (self w)) (downloadedBytes (self w)))
                             "completed")
                          w
                      with
                      | Some w' =>
                          match progressFile (self w') with
                          | Some pf =>
                              with_self (set_progressFile None)
                                (set_fs (QFile.remove (dir pf) (name pf) (fs w')) w')
                          | None => w'
                          end
                      | None => w
                      end in
                    match file (self w) with
                    | Some f => Returned (emit (downloadFinished (QFile.fileName f)) w)
                    | None => NullDeref w
                    end)
           | Some e => Returned (emit (downloadFailed e) w)
           end)
          (fun w =>
             Returned
               (with_self (fun d => set_reply (QNetworkReply.deleteLater <$> reply d) d) w))
    end).

Definition onDownloadProgress (bytesReceived bytesTotal : Z) : World -> Outcome :=
  locked (fun w =>
    let w := with_self (set_downloadedBytes bytesReceived) w in
    andThen (writeReplyToFile w)
      (fun w =>
         let w :=
           if 0 <? bytesTotal
           then emit (downloadProgress (downloadedBytes (self w)) bytesTotal) w
           else emit (downloadProgress (downloadedBytes (self w)) 1) w in
         updateProgressFile (downloadedBytes (self w)) bytesTotal w)).

End Downloader.

(** ** Main.cpp *)

Module Main.

Import QString.

(** Two's complement reduction to [bits] bits. *)
Definition wrap (bits : Z) (z : Z) : Z :=
  (z + 2 ^ (bits - 1)) mod 2 ^ bits - 2 ^ (bits - 1).

(** Integer division of C++; [None] is the division by zero. *)
Definition divide (a b : Z) : option Z :=
  if b =? 0 then None else Some (wrap 64 (Z.quot a b)).

(** The lambda connected to [DownloadThread::downloadProgress]: the value
    it hands to [progressBar->setValue], [None] when it divides by zero. *)
Definition progressValue (bytesReceived bytesTotal : Z) : option Z :=
  if bytesTotal =? 0 then Some 0
  else wrap 32 <$> divide (wrap 64 (bytesReceived * 100)) bytesTotal.

(** The three locals of the parsing loop of [loadUnfinishedDownloads]. *)
Record Parsed := mkParsed {
  parsedUrl : string;
  parsedBytes : Z;
  status : string
}.

Definition parseLine (p : Parsed) (line : string) : Parsed :=
  if startsWith line "Download URL:" then
    {| parsedUrl := trimmed (section_colon_1 line);
       parsedBytes := parsedBytes p; status := status p |}
  else if startsWith line "Downloaded:" then
    {| parsedUrl := parsedUrl p;
       parsedBytes := toLongLong (trimmed (section_colon_1 line));
       status := status p |}
  else if startsWith line "Status:" then
    {| parsedUrl := parsedUrl p; parsedBytes := parsedBytes p;
       status := trimmed (section_colon_1 line) |}
  else p.

(** [while (!stream.atEnd()) { line = stream.readLine(); ... }] *)
Definition parseProgress (text : string) : Parsed :=
  fold_left parseLine (lines text)
    {| parsedUrl := EmptyString; parsedBytes := 0; status := EmptyString |}.

(** [!url.isEmpty() && status != "in-progress"] *)
Definition resumable (p : Parsed) : bool :=
  (negb (isEmpty (parsedUrl p)) && negb (String.eqb (status p) "in-progress"))%bool.

(** The URLs [loadUnfinishedDownloads] passes to [startDownload], in the
    order of the calls. *)
Definition loadUnfinishedDownloads (fs : FileSystem) : list string :=
  let progressDir := homePath fs +:+ "/progress" in
  if QDir.exists_ progressDir fs then
    flat_map
      (fun progressFileName =>
         match QFile.read progressDir progressFileName fs with
         | Some text =>
             let p := parseProgress text in
             if resumable p then [parsedUrl p] else []
         | None => []
         end)
      (QDir.entryList progressDir fs)
  else [].

(** The URLs [onStartDownloadButtonClicked] passes to [startDownload] for
    the text of the input field, in the order of the calls. *)
Definition onStartDownloadButtonClicked (inputUrls : string) : list string :=
  map trimmed (split_comma_skipEmpty inputUrls).

End Main.

(** ** What the transport does to a reply between two calls of the worker *)

Module Transport.

(** Bytes arrive: they join the unread bytes of the reply; [total] is the
    Content-Length the server announced, if any. *)
Definition receive (data : string) (total : option Z) (w : World) : World :=
  with_self
    (fun d =>
       set_reply
         ((fun r =>
             {| error := error r; unread := unread r +:+ data;
                contentLength := total;
                progressConnected := progressConnected r;
                finishedConnected := finishedConnected r;
                deleteLaterPosted := deleteLaterPosted r |}) <$> reply d) d)
    w.

(** The transfer breaks with the error [e]. *)
Definition fail (e : string) (w : World) : World :=
  with_self
    (fun d =>
       set_reply
         ((fun r =>
             {| error := Some e; unread := unread r;
                contentLength := contentLength r;
                progressConnected := progressConnected r;
                finishedConnected := finishedConnected r;
                deleteLaterPosted := deleteLaterPosted r |}) <$> reply d) d)
    w.

End Transport.

(** ** Runs of the public operations *)

Inductive Op :=
| Start
| Progress (bytesReceived bytesTotal : Z)
| Pause
| Resume.

Definition perform (op : Op) : World -> Outcome :=
  match op with
  | Start => Downloader.startDownload
  | Progress b t => Downloader.onDownloadProgress b t
  | Pause => Downloader.pauseDownload
  | Resume => Downloader.resumeDownload
  end.

(** The operations one after the other; a call that does not return ends the
    run. *)
Fixpoint run (ops : list Op) (w : World) : Outcome :=
  match ops with
  | [] => Returned w
  | op :: rest => andThen (perform op w) (run rest)
  end.

Definition reportsNonNegative (op : Op) : Prop :=
  match op with
  | Progress b _ => 0 <= b
  | _ => True
  end.

Definition isPauseOrResume (op : Op) : bool :=
  match op with
  | Pause | Resume => true
  | _ => false
  end.

(** What holds, between two operations, of a worker that has no reply and
    whose URL has no progress record. *)
Definition idleWithoutRecord (w : World) : Prop :=
  mutex (self w) = false
  /\ paused (self w) = false
  /\ reply (self w) = None
  /\ QFile.exists_ (Downloader.progressDir w) (Downloader.progressName w) (fs w) = false.

(** ** Concrete situations *)

Module Scenario.

Import Downloader.

Definition exampleUrl : string := "http://example.com/file.bin".
Definition home : string := "/home/user".

Fixpoint bytes (n : nat) : string :=
  match n with
  | O => EmptyString
  | S k => String "x" (bytes k)
  end.

(** Both directories exist; the progress directory already holds the
    record of [exampleUrl], as [createProgressFile] words it. *)
Definition withRecord : FileSystem :=
  {| homePath := home;
     dirs :=
       <[ "/home/user/qt_downloads"%string := ∅ ]>
         (<[ "/home/user/progress"%string :=
               {[ "file.bin.progress"%string :=
                    recordText exampleUrl "0" "in-progress" ]} ]> ∅) |}.

(** A worker just constructed for [exampleUrl]. *)
Definition fresh : World :=
  {| self := new exampleUrl; fs := withRecord; sent := []; emitted := [] |}.

(** The worker after [startDownload] returned. *)
Definition started : World := world_of (startDownload fresh).

(** 400 of 1000 bytes have arrived and Qt reports them. *)
Definition afterFirstChunk : World :=
  world_of (onDownloadProgress 400 1000
              (Transport.receive (bytes 400) (Some 1000) started)).

Definition pausedAfterStart : World := world_of (pauseDownload started).

Definition resumed : Outcome := resumeDownload pausedAfterStart.

(** The reply ends without error. *)
Definition completed : Outcome := onDownloadFinished started.

(** The reply ends with a transport error. *)
Definition broken : Outcome :=
  onDownloadFinished (Transport.fail "Connection refused" started).

Definition rangeRequest (offset : string) : QNetworkRequest :=
  {| url := exampleUrl;
     rawHeaders := [("Range"%string, "bytes=" +:+ offset +:+ "-")] |}.

(** Only the destination directory exists: no progress directory, no
    record. *)
Definition noRecord : FileSystem :=
  {| homePath := home;
     dirs := <[ "/home/user/qt_downloads"%string := ∅ ]> ∅ |}.

(** Nothing exists below the home directory. *)
Definition emptyHome : FileSystem := {| homePath := home; dirs := ∅ |}.

Definition freshOn (disk : FileSystem) : World :=
  {| self := new exampleUrl; fs := disk; sent := []; emitted := [] |}.

(** Both directories exist, the record is there and the destination file
    already holds 400 bytes. *)
Definition withPartialFile : FileSystem :=
  {| homePath := home;
     dirs :=
       <[ "/home/user/qt_downloads"%string := {[ "file.bin"%string := bytes 400 ]} ]>
         (<[ "/home/user/progress"%string :=
               {[ "file.bin.progress"%string :=
                    recordText exampleUrl "0" "in-progress" ]} ]> ∅) |}.

(** [createProgressFile] called on its own, then [startDownload]: the
    worker holds a handle on its record and a reply. *)
Definition withHandle : World :=
  world_of (andThen (createProgressFile (freshOn noRecord)) startDownload).

End Scenario.

(** * Properties *)

Import Downloader.

(** ** The mutex *)

Section Locking.

Variable body : World -> Outcome.

Lemma locked_held w : mutex (self w) = true -> locked body w = Deadlock w.
Proof. intros H. unfold locked. now rewrite H. Qed.

Lemma locked_free w :
  mutex (self w) = false ->
  locked body w =
    match body (with_self (set_mutex true) w) with
    | Returned w' => Returned (with_self (set_mutex false) w')
    | o => o
    end.
Proof. intros H. unfold locked. now rewrite H. Qed.

End Locking.

Lemma release_acquire w :
  mutex (self w) = false ->
  with_self (set_mutex false) (with_self (set_mutex true) w) = w.
Proof. destruct w as [[] ? ? ?]; simpl; intros ->; reflexivity. Qed.

(** X7: [resumeDownload] on a paused worker calls [startDownload] while it
    holds the mutex, and [startDownload] blocks on it: the call never
    returns, nothing is opened, nothing is sent and nothing is emitted. *)
Lemma resume_paused_deadlocks w :
  mutex (self w) = false -> paused (self w) = true ->
  exists w', resumeDownload w = Deadlock w'
             /\ sent w' = sent w /\ fs w' = fs w /\ emitted w' = emitted w.
Proof.
  intros Hm Hp. unfold resumeDownload. rewrite locked_free by assumption.
  simpl. rewrite Hp. unfold startDownload. rewrite locked_held by reflexivity.
  eexists. split; [reflexivity|]. auto.
Qed.

Lemma resume_not_paused w :
  mutex (self w) = false -> paused (self w) = false -> resumeDownload w = Returned w.
Proof.
  intros Hm Hp. unfold resumeDownload. rewrite locked_free by assumption.
  simpl. rewrite Hp. now rewrite release_acquire.
Qed.

Lemma pause_no_reply w :
  mutex (self w) = false -> reply (self w) = None -> pauseDownload w = Returned w.
Proof.
  intros Hm Hr. unfold pauseDownload. rewrite locked_free by assumption.
  simpl. rewrite Hr. destruct (paused (self w)); now rewrite release_acquire.
Qed.

Lemma never_started_run ops w :
  mutex (self w) = false -> paused (self w) = false -> reply (self w) = None ->
  forallb isPauseOrResume ops = true ->
  run ops w = Returned w.
Proof.
  intros Hm Hp Hr. induction ops as [|op ops IH]; simpl; [reflexivity|].
  intros H. apply andb_prop in H as [Hop Hops].
  destruct op; try discriminate; simpl.
  - rewrite pause_no_reply by assumption. simpl. auto.
  - rewrite resume_not_paused by assumption. simpl. auto.
Qed.

(** ** The file system *)

Lemma append_cancel (h a b : string) : h +:+ a = h +:+ b -> a = b.
Proof. induction h as [|c h IH]; simpl; intros H; [exact H|]. injection H. exact IH. Qed.

Lemma dirs_differ (h : string) : h +:+ "/qt_downloads" <> h +:+ "/progress".
Proof. intros H. apply append_cancel in H. discriminate. Qed.

Lemma read_put_other d d' n n' data disk :
  d <> d' -> QFile.read d' n' (QFile.put d n data disk) = QFile.read d' n' disk.
Proof.
  intros Hd. unfold QFile.read, QFile.put.
  destruct (dirs disk !! d) as [files|] eqn:E; [|reflexivity].
  simpl. now rewrite lookup_insert_ne.
Qed.

Lemma read_put_same d n data disk :
  QDir.exists_ d disk = true -> QFile.read d n (QFile.put d n data disk) = Some data.
Proof.
  unfold QDir.exists_. rewrite bool_decide_eq_true.
  intros [files E]. unfold QFile.read, QFile.put. rewrite E. simpl.
  rewrite lookup_insert_eq. simpl. now rewrite lookup_insert_eq.
Qed.

Lemma read_remove_same d n disk : QFile.read d n (QFile.remove d n disk) = None.
Proof.
  unfold QFile.read, QFile.remove.
  destruct (dirs disk !! d) as [files|] eqn:E; simpl.
  - rewrite lookup_insert_eq. simpl. now rewrite lookup_delete_eq.
  - now rewrite E.
Qed.

Lemma exists_read d n disk :
  QFile.exists_ d n disk = true -> QDir.exists_ d disk = true.
Proof.
  unfold QFile.exists_, QDir.exists_, QFile.read.
  rewrite !bool_decide_eq_true. intros [x H].
  destruct (dirs disk !! d); [eauto | discriminate].
Qed.

Lemma homePath_put d n data disk : homePath (QFile.put d n data disk) = homePath disk.
Proof. unfold QFile.put. destruct (dirs disk !! d); reflexivity. Qed.

Lemma dir_exists_put d d' n data disk :
  QDir.exists_ d' disk = true -> QDir.exists_ d' (QFile.put d n data disk) = true.
Proof.
  unfold QDir.exists_, QFile.put. rewrite !bool_decide_eq_true. intros H.
  destruct (dirs disk !! d) as [files|] eqn:E; [|exact H]. simpl.
  destruct (decide (d = d')) as [->|Hne].
  - rewrite lookup_insert_eq. eauto.
  - now rewrite lookup_insert_ne.
Qed.

Lemma size_nonneg f disk : 0 <= QFile.size f disk.
Proof. unfold QFile.size. destruct (QFile.read _ _ _); lia. Qed.

Lemma entryList_spec d n disk :
  In n (QDir.entryList d disk) <->
  is_Some (QFile.read d n disk) /\ QDir.hidden n = false.
Proof.
  unfold QDir.entryList, QFile.read.
  destruct (dirs disk !! d) as [files|]; simpl.
  - rewrite filter_In, negb_true_iff.
    rewrite <- list_elem_of_In, list_elem_of_fmap. split.
    + intros [[[k v] [-> H]] Hh]. apply elem_of_map_to_list in H. simpl. eauto.
    + intros [[v H] Hh]. split; [|exact Hh].
      exists (n, v). split; [reflexivity|]. now apply elem_of_map_to_list.
  - split; [intros [] | intros [[? ?] _]; discriminate].
Qed.

(** ** [startDownload] *)

(** Where the destination directory exists and the progress record is already
    there, [startDownload] returns; the world it returns is spelled out. *)
Lemma start_returns (w : World) :
  mutex (self w) = false ->
  QDir.exists_ (downloadsDir w) (fs w) = true ->
  QUrl.fileName (downloadUrl (self w)) <> EmptyString ->
  QFile.exists_ (progressDir w) (progressName w) (fs w) = true ->
  let f := {| dir := downloadsDir w; name := QUrl.fileName (downloadUrl (self w));
              isOpen := true |} in
  let disk := QFile.put (dir f) (name f) EmptyString (fs w) in
  startDownload w =
    Returned
      {| self :=
           {| downloadUrl := downloadUrl (self w);
              reply := Some (QNetworkReply.connectSlots QNetworkReply.fresh);
              file := Some f;
              progressFile := progressFile (self w);
              downloadedBytes := QFile.size f disk;
              mutex := false;
              paused := paused (self w) |};
         fs := disk;
         sent := sent w ++
                 [{| url := downloadUrl (self w);
                     rawHeaders :=
                       [("Range"%string,
                         "bytes=" +:+ QString.number (QFile.size f disk) +:+ "-")] |}];
         emitted := emitted w |}.
Proof.
  intros Hm Hd Hn Hp f disk.
  unfold startDownload. rewrite locked_free by assumption. simpl.
  unfold QFile.open_WriteOnly at 1. simpl.
  destruct (QString.isEmpty (QUrl.fileName (downloadUrl (self w)))) eqn:En.
  { destruct (QUrl.fileName (downloadUrl (self w))); [congruence | discriminate]. }
  change (downloadsDir (with_self (set_mutex true) w)) with (downloadsDir w).
  rewrite Hd. fold f. change (QFile.put _ _ _ _) with disk.
  set (w1 := set_fs disk _).
  assert (Hpd : QDir.exists_ (progressDir w1) (fs w1) = true).
  { unfold progressDir, w1. simpl. unfold disk. rewrite homePath_put.
    apply dir_exists_put. eapply exists_read, Hp. }
  unfold ensureProgressDir. rewrite Hpd.
  assert (Hrec : QFile.exists_ (progressDir w1) (progressName w1) (fs w1) = true).
  { unfold progressDir, progressName, w1. simpl. unfold disk, QFile.exists_.
    rewrite homePath_put, read_put_other by apply dirs_differ. exact Hp. }
  rewrite Hrec. reflexivity.
Qed.

(** X3: the open mode is [WriteOnly] alone, which truncates: whatever the
    destination file held, it is empty when [startDownload] reads its size,
    so the counter and the offset of the request are 0. *)
Lemma start_truncates (w : World) :
  mutex (self w) = false ->
  QDir.exists_ (downloadsDir w) (fs w) = true ->
  QUrl.fileName (downloadUrl (self w)) <> EmptyString ->
  QFile.exists_ (progressDir w) (progressName w) (fs w) = true ->
  let w' := world_of (startDownload w) in
  QFile.read (downloadsDir w) (QUrl.fileName (downloadUrl (self w))) (fs w')
    = Some EmptyString
  /\ downloadedBytes (self w') = 0
  /\ sent w' = sent w ++
               [{| url := downloadUrl (self w);
                   rawHeaders := [("Range"%string, "bytes=0-"%string)] |}].
Proof.
  intros Hm Hd Hn Hp. simpl. rewrite start_returns by assumption. simpl.
  unfold QFile.size. simpl. rewrite read_put_same by assumption. auto.
Qed.

(** ** The slots *)

Lemma writeReplyToFile_returns w f r :
  file (self w) = Some f -> reply (self w) = Some r ->
  exists w', writeReplyToFile w = Returned w'
             /\ emitted w' = emitted w
             /\ mutex (self w') = mutex (self w)
             /\ downloadedBytes (self w') = downloadedBytes (self w).
Proof.
  intros Hf Hr. unfold writeReplyToFile. rewrite Hf.
  destruct (QFile.open_WriteOnly f (fs w)) as [[f' fs']|].
  - rewrite Hr. eexists; split; [reflexivity|]. simpl. auto.
  - eexists; split; [reflexivity|]. auto.
Qed.

(** A handle that is open cannot be opened again, so the block that would
    write the reply's bytes is skipped. *)
Lemma writeReplyToFile_open_handle w f :
  file (self w) = Some f -> isOpen f = true -> writeReplyToFile w = Returned w.
Proof.
  intros Hf Ho. unfold writeReplyToFile, QFile.open_WriteOnly. now rewrite Hf, Ho.
Qed.

Lemma writeReplyToFile_counter w :
  downloadedBytes (self (world_of (writeReplyToFile w))) = downloadedBytes (self w)
  /\ mutex (self (world_of (writeReplyToFile w))) = mutex (self w).
Proof.
  unfold writeReplyToFile. destruct (file (self w)); [|auto].
  destruct (QFile.open_WriteOnly _ _) as [[f' fs']|]; [|auto].
  destruct (reply (self w)); auto.
Qed.

(** [onDownloadProgress] emits its signal and then blocks in
    [updateProgressFile], which locks the mutex the slot holds. *)
Lemma progress_emits w f r b t :
  mutex (self w) = false -> file (self w) = Some f -> reply (self w) = Some r ->
  exists w', onDownloadProgress b t w = Deadlock w'
             /\ emitted w' = emitted w ++ [downloadProgress b (if 0 <? t then t else 1)]
             /\ downloadedBytes (self w') = b.
Proof.
  intros Hm Hf Hr. unfold onDownloadProgress. rewrite locked_free by assumption.
  destruct (writeReplyToFile_returns
              (with_self (set_downloadedBytes b) (with_self (set_mutex true) w)) f r)
    as (w1 & -> & He & Hm1 & Hb); [exact Hf | exact Hr |].
  simpl in *. unfold updateProgressFile.
  destruct (0 <? t); (rewrite locked_held by exact Hm1);
    eexists; (split; [reflexivity|]); simpl; rewrite He, Hb; auto.
Qed.

(** X8: with the destination handle still open, as [startDownload] leaves
    it, [onDownloadProgress] sets the counter to the reported count and
    changes nothing on disk. *)
Lemma progress_open_handle w f b t :
  mutex (self w) = false -> file (self w) = Some f -> isOpen f = true ->
  let w' := world_of (onDownloadProgress b t w) in
  fs w' = fs w /\ downloadedBytes (self w') = b.
Proof.
  intros Hm Hf Ho. unfold onDownloadProgress. rewrite locked_free by assumption.
  rewrite (writeReplyToFile_open_handle _ f) by assumption.
  simpl. unfold updateProgressFile.
  destruct (0 <? t); (rewrite locked_held by reflexivity); simpl; auto.
Qed.

Lemma progressValue_defined b t : Main.progressValue b t <> None.
Proof.
  unfold Main.progressValue, Main.divide.
  destruct (t =? 0); discriminate.
Qed.

Lemma finished_with_error w r e :
  mutex (self w) = false -> reply (self w) = Some r -> error r = Some e ->
  onDownloadFinished w =
    Returned (with_self (set_reply (Some (QNetworkReply.deleteLater r)))
                (emit (downloadFailed e) w)).
Proof.
  intros Hm Hr He. unfold onDownloadFinished. rewrite locked_free by assumption.
  simpl. rewrite Hr, He. simpl. rewrite ?Hr. simpl.
  destruct w as [[] ? ? ?]; simpl in *; subst; reflexivity.
Qed.

(** X9: where the worker holds a closed handle on its progress file,
    a completion without error removes the record from the disk, clears the
    handle and emits [downloadFinished] with the destination path. *)
Lemma finished_removes_held_record w r f pf :
  mutex (self w) = false ->
  reply (self w) = Some r -> error r = None ->
  file (self w) = Some f -> isOpen f = true ->
  progressFile (self w) = Some pf -> isOpen pf = false ->
  name pf <> EmptyString -> QDir.exists_ (dir pf) (fs w) = true ->
  exists w', onDownloadFinished w = Returned w'
             /\ QFile.exists_ (dir pf) (name pf) (fs w') = false
             /\ progressFile (self w') = None
             /\ emitted w' = emitted w ++ [downloadFinished (QFile.fileName f)].
Proof.
  intros Hm Hr He Hf Ho Hpf Hpo Hn Hd.
  unfold onDownloadFinished. rewrite locked_free by assumption.
  simpl. rewrite Hr, He.
  rewrite (writeReplyToFile_open_handle _ f) by assumption.
  simpl. unfold rewriteProgressFile. simpl. rewrite Hpf.
  unfold QFile.open_WriteOnly. rewrite Hpo.
  destruct (QString.isEmpty (name pf)) eqn:En.
  { destruct (name pf); [congruence | discriminate]. }
  rewrite Hd. simpl. rewrite Hf. simpl.
  eexists. split; [reflexivity|]. simpl.
  unfold QFile.exists_. rewrite read_remove_same.
  split; [|auto]. apply bool_decide_eq_false. intros [? ?]. discriminate.
Qed.

(** ** The counter *)

Lemma rewriteProgressFile_counter txt w :
  downloadedBytes (self (default w (rewriteProgressFile txt w))) = downloadedBytes (self w).
Proof.
  unfold rewriteProgressFile. destruct (progressFile (self w)) as [pf|]; [|reflexivity].
  destruct (QFile.open_WriteOnly pf (fs w)) as [[pf' fs']|]; reflexivity.
Qed.

Lemma counter_pause w :
  downloadedBytes (self (world_of (pauseDownload w))) = downloadedBytes (self w).
Proof.
  unfold pauseDownload, locked. destruct (mutex (self w)); [reflexivity|].
  simpl. destruct (paused (self w)); [reflexivity|].
  destruct (reply (self w)) as [r|]; [|reflexivity].
  simpl. now rewrite rewriteProgressFile_counter.
Qed.

Lemma counter_start w :
  0 <= downloadedBytes (self w) ->
  0 <= downloadedBytes (self (world_of (startDownload w))).
Proof.
  intros H. unfold startDownload, locked. destruct (mutex (self w)); [exact H|].
  simpl.
  destruct (QFile.open_WriteOnly _ _) as [[f' fs']|]; [|exact H].
  match goal with |- context [ensureProgressDir ?x] => set (w1 := ensureProgressDir x) end.
  assert (Hm : mutex (self w1) = true).
  { subst w1. unfold ensureProgressDir. destruct (QDir.exists_ _ _); reflexivity. }
  assert (Hc : downloadedBytes (self w1) = downloadedBytes (self w)).
  { subst w1. unfold ensureProgressDir. destruct (QDir.exists_ _ _); reflexivity. }
  destruct (QFile.exists_ _ _ _).
  - simpl. apply size_nonneg.
  - unfold createProgressFile. rewrite locked_held by exact Hm. simpl. now rewrite Hc.
Qed.

Lemma counter_resume w :
  0 <= downloadedBytes (self w) ->
  0 <= downloadedBytes (self (world_of (resumeDownload w))).
Proof.
  intros H. unfold resumeDownload, locked. destruct (mutex (self w)); [exact H|].
  simpl. destruct (paused (self w)); [|exact H].
  set (w1 := with_self _ _).
  pose proof (counter_start w1 H) as H1.
  destruct (startDownload w1); simpl in *; exact H1.
Qed.

Lemma counter_progress w b t :
  mutex (self w) = false ->
  downloadedBytes (self (world_of (onDownloadProgress b t w))) = b.
Proof.
  intros Hm. unfold onDownloadProgress. rewrite locked_free by assumption.
  set (w1 := with_self (set_downloadedBytes b) _).
  destruct (writeReplyToFile_counter w1) as [Hc Hk].
  destruct (writeReplyToFile w1) as [w2|w2|w2]; simpl in *; try exact Hc.
  unfold updateProgressFile.
  destruct (0 <? t); (rewrite locked_held by exact Hk); simpl; exact Hc.
Qed.

Lemma counter_progress_held w b t :
  mutex (self w) = true -> onDownloadProgress b t w = Deadlock w.
Proof. intros H. unfold onDownloadProgress. now rewrite locked_held. Qed.

Lemma counter_perform op w :
  reportsNonNegative op -> 0 <= downloadedBytes (self w) ->
  0 <= downloadedBytes (self (world_of (perform op w))).
Proof.
  intros Hop H. destruct op; simpl in *.
  - now apply counter_start.
  - destruct (mutex (self w)) eqn:Hm.
    + now rewrite counter_progress_held.
    + now rewrite counter_progress.
  - now rewrite counter_pause.
  - now apply counter_resume.
Qed.

Lemma counter_run ops : forall w,
  Forall reportsNonNegative ops -> 0 <= downloadedBytes (self w) ->
  0 <= downloadedBytes (self (world_of (run ops w))).
Proof.
  induction ops as [|op ops IH]; intros w Hops H; simpl; [exact H|].
  inversion Hops as [|? ? Hop Hrest]; subst.
  pose proof (counter_perform op w Hop H) as H1.
  destruct (perform op w) as [w1|w1|w1]; simpl in *; auto.
Qed.

(** ** The recovery scan *)

Lemma resumable_spec p :
  Main.resumable p = true <->
  Main.parsedUrl p <> EmptyString /\ Main.status p <> "in-progress"%string.
Proof.
  unfold Main.resumable. rewrite andb_true_iff, !negb_true_iff.
  rewrite String.eqb_neq. split; intros [H1 H2]; split; auto.
  - destruct (Main.parsedUrl p); [discriminate | congruence].
  - destruct (Main.parsedUrl p); [congruence | reflexivity].
Qed.

Lemma loadUnfinishedDownloads_spec disk u :
  In u (Main.loadUnfinishedDownloads disk) <->
  exists n text,
    QDir.hidden n = false
    /\ QFile.read (homePath disk +:+ "/progress") n disk = Some text
    /\ Main.parsedUrl (Main.parseProgress text) = u
    /\ u <> EmptyString
    /\ Main.status (Main.parseProgress text) <> "in-progress"%string.
Proof.
  unfold Main.loadUnfinishedDownloads.
  destruct (QDir.exists_ _ disk) eqn:Ed.
  - rewrite in_flat_map. split.
    + intros (n & Hn & Hu). apply entryList_spec in Hn as [_ Hh].
      destruct (QFile.read _ n disk) as [text|] eqn:Er; [|destruct Hu].
      destruct (Main.resumable _) eqn:Eres; [|destruct Hu].
      destruct Hu as [<-|[]]. apply resumable_spec in Eres as [? ?].
      exists n, text. auto.
    + intros (n & text & Hh & Er & <- & Hne & Hst).
      exists n. split; [apply entryList_spec; rewrite Er; eauto|].
      rewrite Er. simpl.
      assert (Main.resumable (Main.parseProgress text) = true) as ->
        by (apply resumable_spec; auto).
      now left.
  - split; [intros []|].
    intros (n & text & _ & Er & _). exfalso.
    unfold QDir.exists_ in Ed. apply bool_decide_eq_false in Ed. apply Ed.
    unfold QFile.read in Er. destruct (dirs disk !! _); [eauto | discriminate].
Qed.

(** * The claims of the specification *)

(** C1: at every progress callback the counter equals the byte count of the
    destination file, each chunk being appended once.  It does not: after
    [startDownload] the first 400 of 1000 bytes arrive; the slot sets the
    counter to 400 and emits (400, 1000), but the destination handle is still
    open from [startDownload], so re-opening it fails, the write is skipped
    and the 400 bytes stay unread in the reply.  The file on disk is empty. *)
Theorem progress_counter_exceeds_file :
  let w := Scenario.afterFirstChunk in
  emitted w = [downloadProgress 400 1000]
  /\ downloadedBytes (self w) = 400
  /\ QFile.read "/home/user/qt_downloads" "file.bin" (fs w) = Some EmptyString
  /\ (forall f, file (self w) = Some f -> QFile.size f (fs w) = 0)
  /\ (unread <$> reply (self w)) = Some (Scenario.bytes 400).
Proof.
  vm_compute. repeat split. intros f [= <-]. reflexivity.
Qed.

(** C2: resuming a paused download issues a range request at the file's
    current size.  It does not: start, pause, resume leaves the single request
    of the start; [resumeDownload] clears the flag and then blocks in
    [startDownload] on the mutex it holds itself. *)
Theorem resume_sends_no_request :
  paused (self Scenario.pausedAfterStart) = true
  /\ sent Scenario.pausedAfterStart = [Scenario.rangeRequest "0"]
  /\ exists w, Scenario.resumed = Deadlock w
               /\ sent w = [Scenario.rangeRequest "0"]
               /\ emitted w = [pauseResumeStatusChanged true].
Proof.
  split; [reflexivity|]. split; [reflexivity|].
  eexists. split; [vm_compute; reflexivity|]. split; reflexivity.
Qed.

(** C3, as stated, fails: a download whose record carries the in-progress
    marker fails with a transport error; the record is still there with that
    marker, and the recovery scan of the resulting disk submits nothing. *)
Lemma failed_in_progress_record_not_resubmitted :
  let w := world_of Scenario.broken in
  emitted w = [downloadFailed "Connection refused"]
  /\ (Main.status <$> (Main.parseProgress <$>
        QFile.read "/home/user/progress" "file.bin.progress" (fs w)))
     = Some "in-progress"%string
  /\ ~ In Scenario.exampleUrl (Main.loadUnfinishedDownloads (fs w)).
Proof.
  vm_compute. repeat split. intros [].
Qed.

(** C3, amended: the failure path emits [downloadFailed] with the reply's
    error string and leaves the progress store as it was (no record is
    deleted or rewritten, no other status is written); the recovery scan
    submits exactly the URLs of the records, in files of the progress
    directory that are not hidden, whose URL is not empty and whose status is
    not "in-progress". *)
Theorem failure_keeps_store_and_recovery_skips_in_progress
    (w : World) (r : QNetworkReply) (e : string) :
  mutex (self w) = false -> reply (self w) = Some r -> error r = Some e ->
  exists w',
    onDownloadFinished w = Returned w'
    /\ fs w' = fs w
    /\ progressFile (self w') = progressFile (self w)
    /\ emitted w' = emitted w ++ [downloadFailed e]
    /\ forall u,
         In u (Main.loadUnfinishedDownloads (fs w')) <->
         exists n text,
           QDir.hidden n = false
           /\ QFile.read (homePath (fs w) +:+ "/progress") n (fs w) = Some text
           /\ Main.parsedUrl (Main.parseProgress text) = u
           /\ u <> EmptyString
           /\ Main.status (Main.parseProgress text) <> "in-progress"%string.
Proof.
  intros Hm Hr He. eexists. split; [apply finished_with_error; eassumption|].
  simpl. repeat split; try reflexivity; apply loadUnfinishedDownloads_spec.
Qed.

Lemma failure_keeps_store_and_recovery_skips_in_progress_witness :
  let w := Transport.fail "Connection refused" Scenario.started in
  mutex (self w) = false
  /\ exists w',
       onDownloadFinished w = Returned w'
       /\ fs w' = fs w
       /\ progressFile (self w') = progressFile (self w)
       /\ emitted w' = emitted w ++ [downloadFailed "Connection refused"]
       /\ forall u,
            In u (Main.loadUnfinishedDownloads (fs w')) <->
            exists n text,
              QDir.hidden n = false
              /\ QFile.read (homePath (fs w) +:+ "/progress") n (fs w) = Some text
              /\ Main.parsedUrl (Main.parseProgress text) = u
              /\ u <> EmptyString
              /\ Main.status (Main.parseProgress text) <> "in-progress"%string.
Proof.
  split; [reflexivity|].
  apply (failure_keeps_store_and_recovery_skips_in_progress
           (Transport.fail "Connection refused" Scenario.started)
           {| error := Some "Connection refused"%string; unread := EmptyString;
              contentLength := None; progressConnected := 1; finishedConnected := 1;
              deleteLaterPosted := false |}
           "Connection refused"); reflexivity.
Defined.

(** C4: completing a download deletes its progress record.  It does not when
    the record was already there at the start (the very case of a recovered
    download): [createProgressFile] is skipped, [progressFile] stays null,
    and the completion block that rewrites and removes the record is guarded
    by that pointer.  The download finishes and the record is still listed. *)
Theorem completion_keeps_existing_record :
  progressFile (self Scenario.started) = None
  /\ exists w, Scenario.completed = Returned w
               /\ emitted w = [downloadFinished "/home/user/qt_downloads/file.bin"]
               /\ QFile.exists_ "/home/user/progress" "file.bin.progress" (fs w) = true
               /\ QDir.entryList "/home/user/progress" (fs w) = ["file.bin.progress"%string].
Proof.
  split; [reflexivity|].
  eexists. split; [vm_compute; reflexivity|]. repeat split.
Qed.

(** C5, as stated, fails: on an empty destination file the offset is 0 and
    the request still carries a Range header, [bytes=0-]. *)
Lemma start_at_offset_0_sends_range :
  let w := world_of (startDownload Scenario.fresh) in
  downloadedBytes (self w) = 0
  /\ sent w = [Scenario.rangeRequest "0"]
  /\ ~ (forall r, In r (sent w) -> rawHeaders r = []).
Proof.
  vm_compute. repeat split. intros H.
  specialize (H _ (or_introl eq_refl)). discriminate.
Qed.

(** C5, amended: a start that opens the destination file and finds the
    progress record in place takes the size [n] the opened file reports as
    the counter and issues one GET that carries the header [Range: bytes=n-],
    whatever [n] is, 0 included; there is no plain GET. *)
Theorem start_always_sends_range (w : World) :
  mutex (self w) = false ->
  QDir.exists_ (downloadsDir w) (fs w) = true ->
  QUrl.fileName (downloadUrl (self w)) <> EmptyString ->
  QFile.exists_ (progressDir w) (progressName w) (fs w) = true ->
  exists w' f,
    startDownload w = Returned w'
    /\ file (self w') = Some f
    /\ QFile.fileName f = downloadsDir w +:+ "/" +:+ QUrl.fileName (downloadUrl (self w))
    /\ isOpen f = true
    /\ downloadedBytes (self w') = QFile.size f (fs w')
    /\ sent w' = sent w ++
                 [{| url := downloadUrl (self w);
                     rawHeaders :=
                       [("Range"%string,
                         "bytes=" +:+ QString.number (downloadedBytes (self w')) +:+ "-")] |}].
Proof.
  intros Hm Hd Hn Hp. eexists _, _.
  split; [apply start_returns; assumption|]. simpl. auto.
Qed.

Lemma start_always_sends_range_witness :
  mutex (self Scenario.fresh) = false
  /\ exists w' f,
       startDownload Scenario.fresh = Returned w'
       /\ file (self w') = Some f
       /\ QFile.fileName f
          = downloadsDir Scenario.fresh +:+ "/" +:+
            QUrl.fileName (downloadUrl (self Scenario.fresh))
       /\ isOpen f = true
       /\ downloadedBytes (self w') = QFile.size f (fs w')
       /\ sent w' = sent Scenario.fresh ++
                    [{| url := downloadUrl (self Scenario.fresh);
                        rawHeaders :=
                          [("Range"%string,
                            "bytes=" +:+ QString.number (downloadedBytes (self w')) +:+ "-")] |}].
Proof.
  split; [reflexivity|].
  apply (start_always_sends_range Scenario.fresh).
  - reflexivity.
  - vm_compute; reflexivity.
  - vm_compute; discriminate.
  - vm_compute; reflexivity.
Defined.

(** X20: from any state of the worker, as long as every progress report
    carries a non-negative received count, the counter is non-negative after
    every run of start, progress update, pause and resume; pause leaves it
    unchanged; a progress update sets it to the reported count, so it does
    not decrease across an update whose count is not below it. *)
Theorem counter_non_negative_and_follows_reports (ops : list Op) (w : World) :
  Forall reportsNonNegative ops ->
  0 <= downloadedBytes (self w) ->
  0 <= downloadedBytes (self (world_of (run ops w)))
  /\ downloadedBytes (self (world_of (pauseDownload w))) = downloadedBytes (self w)
  /\ (forall b t, mutex (self w) = false ->
        downloadedBytes (self (world_of (onDownloadProgress b t w))) = b)
  /\ (forall b t, downloadedBytes (self w) <= b ->
        downloadedBytes (self w)
        <= downloadedBytes (self (world_of (onDownloadProgress b t w)))).
Proof.
  intros Hops H. split; [now apply counter_run|].
  split; [apply counter_pause|].
  split; [intros b t Hm; now apply counter_progress|].
  intros b t Hb. destruct (mutex (self w)) eqn:Hm.
  - rewrite counter_progress_held by assumption. simpl. lia.
  - rewrite counter_progress by assumption. exact Hb.
Qed.

Lemma counter_non_negative_and_follows_reports_witness :
  let ops := [Start; Pause; Resume; Progress 400 1000] in
  let w := Scenario.fresh in
  Forall reportsNonNegative ops
  /\ 0 <= downloadedBytes (self w)
  /\ 0 <= downloadedBytes (self (world_of (run ops w)))
  /\ downloadedBytes (self (world_of (pauseDownload w))) = downloadedBytes (self w)
  /\ (forall b t, mutex (self w) = false ->
        downloadedBytes (self (world_of (onDownloadProgress b t w))) = b)
  /\ (forall b t, downloadedBytes (self w) <= b ->
        downloadedBytes (self w)
        <= downloadedBytes (self (world_of (onDownloadProgress b t w)))).
Proof.
  assert (H1 : Forall reportsNonNegative [Start; Pause; Resume; Progress 400 1000]).
  { repeat constructor. simpl. lia. }
  assert (H2 : 0 <= downloadedBytes (self Scenario.fresh)).
  { simpl. lia. }
  split; [exact H1|]. split; [exact H2|].
  exact (counter_non_negative_and_follows_reports
           [Start; Pause; Resume; Progress 400 1000] Scenario.fresh H1 H2).
Defined.

(** C7: a progress update never makes the percentage computation divide by
    zero.  The slot never emits the total 0 (it passes a positive total on and
    replaces any other by 1), and the lambda that computes the percentage
    tests the total against 0 before it divides: it yields a value for the
    emitted pair, for the reported pair, and 0 for the total 0. *)
Theorem progress_never_divides_by_zero (w : World) (b t : Z) :
  mutex (self w) = false ->
  is_Some (file (self w)) ->
  is_Some (reply (self w)) ->
  exists t',
    emitted (world_of (onDownloadProgress b t w))
      = emitted w ++ [downloadProgress b t']
    /\ t' <> 0
    /\ Main.divide (Main.wrap 64 (b * 100)) t' <> None
    /\ Main.progressValue b t' <> None
    /\ Main.progressValue b t <> None
    /\ Main.progressValue b 0 = Some 0.
Proof.
  intros Hm [f Hf] [r Hr].
  destruct (progress_emits w f r b t Hm Hf Hr) as (w' & -> & He & _).
  exists (if 0 <? t then t else 1). simpl.
  assert (Hne : (if 0 <? t then t else 1) <> 0).
  { destruct (0 <? t) eqn:E; [apply Z.ltb_lt in E; lia | lia]. }
  split; [exact He|]. split; [exact Hne|]. split.
  - unfold Main.divide.
    destruct (_ =? 0) eqn:E; [apply Z.eqb_eq in E; contradiction | discriminate].
  - repeat split; try apply progressValue_defined.
Qed.

Lemma progress_never_divides_by_zero_witness :
  let w := Transport.receive (Scenario.bytes 400) None Scenario.started in
  mutex (self w) = false
  /\ is_Some (file (self w))
  /\ is_Some (reply (self w))
  /\ exists t',
       emitted (world_of (onDownloadProgress 400 0 w))
         = emitted w ++ [downloadProgress 400 t']
       /\ t' <> 0
       /\ Main.divide (Main.wrap 64 (400 * 100)) t' <> None
       /\ Main.progressValue 400 t' <> None
       /\ Main.progressValue 400 0 <> None
       /\ Main.progressValue 400 0 = Some 0.
Proof.
  assert (H1 : mutex (self (Transport.receive (Scenario.bytes 400) None Scenario.started))
               = false) by reflexivity.
  assert (H2 : is_Some (file (self (Transport.receive (Scenario.bytes 400) None
                                      Scenario.started))))
    by (vm_compute; eauto).
  assert (H3 : is_Some (reply (self (Transport.receive (Scenario.bytes 400) None
                                       Scenario.started))))
    by (vm_compute; eauto).
  split; [exact H1|]. split; [exact H2|]. split; [exact H3|].
  exact (progress_never_divides_by_zero
           (Transport.receive (Scenario.bytes 400) None Scenario.started) 400 0 H1 H2 H3).
Defined.

(** C8: a record written by the per-tick update reads back with the same
    byte count.  It does not: the update writes [Downloaded: 400 / 1000] and
    the reader hands everything behind the colon, trimmed, to [toLongLong],
    which rejects [400 / 1000] and yields 0.  URL and status do read back;
    the record of [createProgressFile], whose count is the bare 0, reads back
    whole. *)
Theorem record_byte_count_not_recovered :
  let written := recordText Scenario.exampleUrl (outOf 400 1000) "in-progress" in
  QString.lines written
    = ["Download URL: http://example.com/file.bin"%string;
       "Downloaded: 400 / 1000"%string;
       "Status: in-progress"%string]
  /\ Main.parseProgress written
     = {| Main.parsedUrl := Scenario.exampleUrl;
          Main.parsedBytes := 0;
          Main.status := "in-progress" |}
  /\ Main.parsedBytes (Main.parseProgress written) <> 400
  /\ Main.parseProgress (recordText Scenario.exampleUrl "0" "in-progress")
     = {| Main.parsedUrl := Scenario.exampleUrl;
          Main.parsedBytes := 0;
          Main.status := "in-progress" |}.
Proof.
  vm_compute. repeat split. discriminate.
Qed.

(** C9, as stated, fails: on a worker just constructed, resume returns at
    once and leaves everything as it is, while start opens the destination
    file and sends the initial request. *)
Lemma resume_on_fresh_worker_is_not_start :
  resumeDownload Scenario.fresh = Returned Scenario.fresh
  /\ sent (world_of (resumeDownload Scenario.fresh)) = []
  /\ file (self (world_of (resumeDownload Scenario.fresh))) = None
  /\ sent (world_of (startDownload Scenario.fresh)) = [Scenario.rangeRequest "0"]
  /\ resumeDownload Scenario.fresh <> startDownload Scenario.fresh.
Proof.
  split; [vm_compute; reflexivity|]. split; [reflexivity|]. split; [reflexivity|].
  split; [reflexivity|].
  intros H. apply (f_equal (fun o => sent (world_of o))) in H.
  vm_compute in H. discriminate.
Qed.

(** C9, amended: on a worker on which start has never been invoked, resume
    does nothing; the [paused] flag is still false, whatever pause and resume
    calls came before, and resume acts only when it is set.  No file is opened,
    no request is sent, no signal is emitted. *)
Theorem resume_without_start_is_noop (u : string) (disk : FileSystem) (ops : list Op) :
  forallb isPauseOrResume ops = true ->
  let w := {| self := Downloader.new u; fs := disk; sent := []; emitted := [] |} in
  run ops w = Returned w /\ resumeDownload w = Returned w.
Proof.
  intros H w. split.
  - now apply never_started_run.
  - now apply resume_not_paused.
Qed.

Lemma resume_without_start_is_noop_witness :
  forallb isPauseOrResume [Pause; Resume; Resume] = true
  /\ run [Pause; Resume; Resume] Scenario.fresh = Returned Scenario.fresh
  /\ resumeDownload Scenario.fresh = Returned Scenario.fresh.
Proof.
  split; [reflexivity|].
  exact (resume_without_start_is_noop Scenario.exampleUrl Scenario.withRecord
           [Pause; Resume; Resume] eq_refl).
Defined.

(** C10: when the reported total is 0 or negative, [onDownloadProgress]
    emits [downloadProgress] with the received count and the total 1; for no
    reported total at all does it emit the total 0. *)
Theorem unknown_total_reported_as_1 (w : World) (b t : Z) :
  mutex (self w) = false ->
  is_Some (file (self w)) ->
  is_Some (reply (self w)) ->
  t <= 0 ->
  emitted (world_of (onDownloadProgress b t w)) = emitted w ++ [downloadProgress b 1]
  /\ forall t0, exists t',
       emitted (world_of (onDownloadProgress b t0 w))
         = emitted w ++ [downloadProgress b t']
       /\ t' <> 0.
Proof.
  intros Hm [f Hf] [r Hr] Ht. split.
  - destruct (progress_emits w f r b t Hm Hf Hr) as (w' & -> & He & _).
    simpl. rewrite He. destruct (0 <? t) eqn:E; [apply Z.ltb_lt in E; lia | reflexivity].
  - intros t0.
    destruct (progress_emits w f r b t0 Hm Hf Hr) as (w' & -> & He & _).
    exists (if 0 <? t0 then t0 else 1). split; [exact He|].
    destruct (0 <? t0) eqn:E; [apply Z.ltb_lt in E; lia | lia].
Qed.

Lemma unknown_total_reported_as_1_witness :
  let w := Transport.receive (Scenario.bytes 400) None Scenario.started in
  mutex (self w) = false
  /\ is_Some (file (self w))
  /\ is_Some (reply (self w))
  /\ -1 <= 0
  /\ emitted (world_of (onDownloadProgress 400 (-1) w))
     = emitted w ++ [downloadProgress 400 1]
  /\ forall t0, exists t',
       emitted (world_of (onDownloadProgress 400 t0 w))
         = emitted w ++ [downloadProgress 400 t']
       /\ t' <> 0.
Proof.
  assert (H1 : mutex (self (Transport.receive (Scenario.bytes 400) None Scenario.started))
               = false) by reflexivity.
  assert (H2 : is_Some (file (self (Transport.receive (Scenario.bytes 400) None
                                      Scenario.started))))
    by (vm_compute; eauto).
  assert (H3 : is_Some (reply (self (Transport.receive (Scenario.bytes 400) None
                                       Scenario.started))))
    by (vm_compute; eauto).
  assert (H4 : -1 <= 0) by lia.
  split; [exact H1|]. split; [exact H2|]. split; [exact H3|]. split; [exact H4|].
  exact (unknown_total_reported_as_1
           (Transport.receive (Scenario.bytes 400) None Scenario.started)
           400 (-1) H1 H2 H3 H4).
Defined.

(** * Further properties of the code *)

(** ** Strings *)

Lemma append_cons (c : ascii) (s t : string) : String c s +:+ t = String c (s +:+ t).
Proof. reflexivity. Qed.

Lemma append_empty_l (s : string) : EmptyString +:+ s = s.
Proof. reflexivity. Qed.

Lemma append_empty_r (s : string) : s +:+ EmptyString = s.
Proof.
  induction s as [|c s IH]; [reflexivity|]. rewrite append_cons. now rewrite IH.
Qed.

Lemma append_assoc (a b c : string) : (a +:+ b) +:+ c = a +:+ (b +:+ c).
Proof.
  induction a as [|x a IH]; [reflexivity|]. rewrite !append_cons. now rewrite IH.
Qed.

Lemma lacks_append c a b :
  QString.lacks c (a +:+ b) = (QString.lacks c a && QString.lacks c b)%bool.
Proof.
  induction a as [|x a IH]; [reflexivity|].
  rewrite append_cons. simpl. rewrite IH. now rewrite andb_assoc.
Qed.

Lemma lines_from_line cur a rest :
  QString.oneLine a = true ->
  QString.lines_from cur (a +:+ QString.nl +:+ rest)
  = (cur +:+ a) :: QString.lines_from EmptyString rest.
Proof.
  revert cur. induction a as [|c a IH]; intros cur H.
  - rewrite append_empty_l, append_empty_r. reflexivity.
  - unfold QString.oneLine in H. simpl in H.
    apply andb_prop in H as [Hc Ha]. apply negb_true_iff in Hc.
    rewrite append_cons. simpl. rewrite Hc. rewrite (IH _ Ha).
    now rewrite append_assoc.
Qed.

Lemma lines_recordText u d st :
  QString.oneLine u = true -> QString.oneLine d = true -> QString.oneLine st = true ->
  QString.lines (recordText u d st)
  = ["Download URL: " +:+ u; "Downloaded: " +:+ d; "Status: " +:+ st].
Proof.
  intros Hu Hd Hs. unfold QString.lines, recordText.
  rewrite <- (append_assoc "Download URL: " u).
  rewrite lines_from_line
    by (unfold QString.oneLine in *; rewrite lacks_append, Hu; reflexivity).
  rewrite <- (append_assoc "Downloaded: " d).
  rewrite lines_from_line
    by (unfold QString.oneLine in *; rewrite lacks_append, Hd; reflexivity).
  rewrite <- (append_empty_r QString.nl).
  rewrite <- (append_assoc "Status: " st).
  rewrite lines_from_line
    by (unfold QString.oneLine in *; rewrite lacks_append, Hs; reflexivity).
  reflexivity.
Qed.

Lemma parse_recordText u d st :
  QString.oneLine u = true -> QString.oneLine d = true -> QString.oneLine st = true ->
  Main.parseProgress (recordText u d st)
  = {| Main.parsedUrl := QString.trimmed u;
       Main.parsedBytes := QString.toLongLong (QString.trimmed d);
       Main.status := QString.trimmed st |}.
Proof.
  intros Hu Hd Hs. unfold Main.parseProgress.
  rewrite lines_recordText by assumption.
  reflexivity.
Qed.

Lemma trim_left_head (s : string) :
  QString.trim_left s = EmptyString
  \/ exists c r, QString.trim_left s = String c r /\ QString.isSpace c = false.
Proof.
  induction s as [|c s IH]; [now left|].
  simpl. destruct (QString.isSpace c) eqn:E; [exact IH|]. right. eauto.
Qed.

Lemma trim_right_head c r :
  QString.isSpace c = false ->
  exists r', QString.trim_right (String c r) = String c r'.
Proof.
  intros H. simpl. destruct (QString.trim_right r); [rewrite H|]; eauto.
Qed.

Lemma trim_right_idem (s : string) :
  QString.trim_right (QString.trim_right s) = QString.trim_right s.
Proof.
  induction s as [|c s IH]; [reflexivity|].
  simpl. destruct (QString.trim_right s) as [|c' r'] eqn:E.
  - destruct (QString.isSpace c) eqn:Ec; [reflexivity|]. simpl. now rewrite Ec.
  - change (QString.trim_right (String c (String c' r')))
      with (match QString.trim_right (String c' r') with
            | EmptyString =>
                if QString.isSpace c then EmptyString else String c EmptyString
            | r0 => String c r0
            end).
    now rewrite IH.
Qed.

Lemma trimmed_idem (s : string) :
  QString.trimmed (QString.trimmed s) = QString.trimmed s.
Proof.
  unfold QString.trimmed.
  destruct (trim_left_head s) as [E | (c & r & E & Hc)]; rewrite E; [reflexivity|].
  destruct (trim_right_head c r Hc) as [r' E'].
  assert (Hl : QString.trim_left (QString.trim_right (String c r))
               = QString.trim_right (String c r)).
  { rewrite E'. simpl. now rewrite Hc. }
  rewrite Hl. apply trim_right_idem.
Qed.

Lemma lacks_trim_left c s :
  QString.lacks c s = true -> QString.lacks c (QString.trim_left s) = true.
Proof.
  induction s as [|a s IH]; [auto|]. intros H. simpl.
  destruct (QString.isSpace a); [|exact H].
  simpl in H. apply andb_prop in H as [_ H]. auto.
Qed.

Lemma lacks_trim_right c s :
  QString.lacks c s = true -> QString.lacks c (QString.trim_right s) = true.
Proof.
  induction s as [|a s IH]; [auto|]. intros H. simpl in H.
  apply andb_prop in H as [Ha H]. specialize (IH H). simpl.
  destruct (QString.trim_right s) as [|a' r'].
  - destruct (QString.isSpace a); [reflexivity|]. simpl. now rewrite Ha.
  - simpl in *. now rewrite Ha, IH.
Qed.

Lemma lacks_trimmed c s :
  QString.lacks c s = true -> QString.lacks c (QString.trimmed s) = true.
Proof. intros H. unfold QString.trimmed. now apply lacks_trim_right, lacks_trim_left. Qed.

Lemma oneLine_digits (d : Decimal.uint) :
  QString.oneLine (NilEmpty.string_of_uint d) = true.
Proof. induction d; simpl; auto. Qed.

Lemma oneLine_nilzero (d : Decimal.uint) :
  QString.oneLine (NilZero.string_of_uint d) = true.
Proof. destruct d; try reflexivity; apply (oneLine_digits (_ d)). Qed.

Lemma oneLine_number (n : Z) : QString.oneLine (QString.number n) = true.
Proof.
  unfold QString.number, NilZero.string_of_int.
  destruct (Z.to_int n) as [d|d]; [apply oneLine_nilzero|].
  change (QString.oneLine (String "-" (NilZero.string_of_uint d)))
    with (QString.oneLine (NilZero.string_of_uint d)).
  apply oneLine_nilzero.
Qed.

Lemma oneLine_outOf (b t : Z) : QString.oneLine (outOf b t) = true.
Proof.
  unfold outOf, QString.oneLine.
  rewrite !lacks_append. fold (QString.oneLine (QString.number b)).
  fold (QString.oneLine (QString.number t)). now rewrite !oneLine_number.
Qed.

Lemma pieces_lack_comma s : forall cur p,
  QString.lacks "," cur = true ->
  In p (QString.pieces_from cur s) -> QString.lacks "," p = true.
Proof.
  induction s as [|c s IH]; intros cur p Hcur Hin.
  - destruct Hin as [<-|[]]. exact Hcur.
  - simpl in Hin. destruct (Ascii.eqb c ",") eqn:E.
    + destruct Hin as [<-|Hin]; [exact Hcur|]. now apply (IH EmptyString).
    + apply (IH (cur +:+ String c EmptyString)); [|exact Hin].
      rewrite lacks_append, Hcur. simpl. now rewrite E.
Qed.

Lemma pieces_without_comma s : forall cur,
  QString.lacks "," s = true -> QString.pieces_from cur s = [cur +:+ s].
Proof.
  induction s as [|c s IH]; intros cur H.
  - simpl. now rewrite append_empty_r.
  - simpl in H. apply andb_prop in H as [Hc H]. apply negb_true_iff in Hc.
    simpl. rewrite Hc, (IH _ H). now rewrite append_assoc.
Qed.

(** ** More of the file system *)

Lemma homePath_mkpath d disk : homePath (QDir.mkpath d disk) = homePath disk.
Proof. unfold QDir.mkpath. destruct (dirs disk !! d); reflexivity. Qed.

Lemma read_mkpath d d' n disk :
  QFile.read d n (QDir.mkpath d' disk) = QFile.read d n disk.
Proof.
  unfold QFile.read, QDir.mkpath.
  destruct (dirs disk !! d') as [files|] eqn:E; [reflexivity|]. simpl.
  destruct (decide (d' = d)) as [<-|Hne].
  - rewrite lookup_insert_eq, E. reflexivity.
  - now rewrite lookup_insert_ne.
Qed.

Lemma dir_exists_mkpath d disk : QDir.exists_ d (QDir.mkpath d disk) = true.
Proof.
  unfold QDir.exists_, QDir.mkpath. apply bool_decide_eq_true.
  destruct (dirs disk !! d) as [files|] eqn:E; simpl.
  - rewrite E. eauto.
  - rewrite lookup_insert_eq. eauto.
Qed.

Lemma dir_exists_spec d disk :
  QDir.exists_ d disk = true <-> is_Some (dirs disk !! d).
Proof. unfold QDir.exists_. apply bool_decide_eq_true. Qed.

(** What a handle writes right after a successful [open(WriteOnly)] is the
    whole content of the file. *)
Lemma open_then_write f disk f' disk' text :
  QFile.open_WriteOnly f disk = Some (f', disk') ->
  QFile.read (dir f) (name f) (QFile.write f' text disk') = Some text
  /\ homePath (QFile.write f' text disk') = homePath disk
  /\ f' = {| dir := dir f; name := name f; isOpen := true |}
  /\ QDir.exists_ (dir f) disk = true.
Proof.
  unfold QFile.open_WriteOnly.
  destruct (isOpen f); [discriminate|].
  destruct (QString.isEmpty (name f)); [discriminate|].
  destruct (QDir.exists_ (dir f) disk) eqn:Ed; [|discriminate].
  intros [= <- <-]. unfold QFile.write. simpl.
  rewrite read_put_same by exact Ed. rewrite append_empty_l.
  rewrite read_put_same by (now apply dir_exists_put).
  rewrite !homePath_put. auto.
Qed.

Lemma open_succeeds f disk :
  isOpen f = false -> name f <> EmptyString -> QDir.exists_ (dir f) disk = true ->
  QFile.open_WriteOnly f disk
  = Some ({| dir := dir f; name := name f; isOpen := true |},
          QFile.put (dir f) (name f) EmptyString disk).
Proof.
  intros Ho Hn Hd. unfold QFile.open_WriteOnly. rewrite Ho, Hd.
  destruct (name f); [congruence | reflexivity].
Qed.

Lemma open_fails f disk :
  QDir.exists_ (dir f) disk = false \/ name f = EmptyString ->
  QFile.open_WriteOnly f disk = None.
Proof.
  intros [H|H]; unfold QFile.open_WriteOnly; rewrite H;
    destruct (isOpen f); try reflexivity.
  destruct (QString.isEmpty (name f)); reflexivity.
Qed.

Lemma progressName_not_empty w : progressName w <> EmptyString.
Proof.
  unfold progressName. destruct (QUrl.fileName _); discriminate.
Qed.

(** ** [startDownload], the other cases *)

(** X1: when the destination cannot be opened (the directory [qt_downloads]
    is missing, which the program never creates, or the URL has no file name)
    [startDownload] emits [downloadFailed] and returns: nothing is sent, the
    disk, the reply and the counter are as before. *)
Theorem start_fails_without_destination (w : World) :
  mutex (self w) = false ->
  QDir.exists_ (downloadsDir w) (fs w) = false
    \/ QUrl.fileName (downloadUrl (self w)) = EmptyString ->
  exists w',
    startDownload w = Returned w'
    /\ emitted w' = emitted w ++ [downloadFailed "Failed to open file for writing."]
    /\ sent w' = sent w
    /\ fs w' = fs w
    /\ reply (self w') = reply (self w)
    /\ downloadedBytes (self w') = downloadedBytes (self w)
    /\ mutex (self w') = false.
Proof.
  intros Hm H. unfold startDownload. rewrite locked_free by assumption. simpl.
  rewrite open_fails by exact H.
  eexists. split; [reflexivity|]. simpl. auto 10.
Qed.

Lemma start_fails_without_destination_witness :
  let w := Scenario.freshOn Scenario.emptyHome in
  mutex (self w) = false
  /\ exists w',
       startDownload w = Returned w'
       /\ emitted w' = emitted w ++ [downloadFailed "Failed to open file for writing."]
       /\ sent w' = sent w
       /\ fs w' = fs w
       /\ reply (self w') = reply (self w)
       /\ downloadedBytes (self w') = downloadedBytes (self w)
       /\ mutex (self w') = false.
Proof.
  split; [reflexivity|].
  apply (start_fails_without_destination (Scenario.freshOn Scenario.emptyHome)).
  - reflexivity.
  - left. vm_compute. reflexivity.
Defined.

(** [ensureProgressDir] makes the directory and changes nothing else. *)
Lemma ensure_self w : self (ensureProgressDir w) = self w.
Proof. unfold ensureProgressDir. destruct (QDir.exists_ (progressDir w) (fs w)); reflexivity. Qed.

Lemma ensure_sent w :
  sent (ensureProgressDir w) = sent w /\ emitted (ensureProgressDir w) = emitted w.
Proof. unfold ensureProgressDir. destruct (QDir.exists_ (progressDir w) (fs w)); auto. Qed.

Lemma ensure_homePath w : homePath (fs (ensureProgressDir w)) = homePath (fs w).
Proof.
  unfold ensureProgressDir. destruct (QDir.exists_ (progressDir w) (fs w)); [reflexivity|].
  simpl. apply homePath_mkpath.
Qed.

Lemma ensure_read w d n : QFile.read d n (fs (ensureProgressDir w)) = QFile.read d n (fs w).
Proof.
  unfold ensureProgressDir. destruct (QDir.exists_ (progressDir w) (fs w)); [reflexivity|].
  simpl. apply read_mkpath.
Qed.

Lemma ensure_dir w : QDir.exists_ (progressDir w) (fs (ensureProgressDir w)) = true.
Proof.
  unfold ensureProgressDir. destruct (QDir.exists_ (progressDir w) (fs w)) eqn:E; [exact E|].
  simpl. apply dir_exists_mkpath.
Qed.

Lemma ensure_names w :
  progressDir (ensureProgressDir w) = progressDir w
  /\ progressName (ensureProgressDir w) = progressName w.
Proof.
  unfold progressDir, progressName. now rewrite ensure_homePath, ensure_self.
Qed.

(** Without a progress record, a start whose destination opens goes into
    [createProgressFile] with the mutex held and stays there; the world it
    stays in is spelled out. *)
Lemma start_blocks_explicit (w : World) :
  mutex (self w) = false ->
  QDir.exists_ (downloadsDir w) (fs w) = true ->
  QUrl.fileName (downloadUrl (self w)) <> EmptyString ->
  QFile.exists_ (progressDir w) (progressName w) (fs w) = false ->
  let f := {| dir := downloadsDir w; name := QUrl.fileName (downloadUrl (self w));
              isOpen := true |} in
  startDownload w =
    Deadlock
      (ensureProgressDir
         (set_fs (QFile.put (dir f) (name f) EmptyString (fs w))
            (with_self (set_file (Some f)) (with_self (set_mutex true) w)))).
Proof.
  intros Hm Hd Hn Hp f.
  unfold startDownload. rewrite locked_free by assumption. simpl.
  change (downloadsDir (with_self (set_mutex true) w)) with (downloadsDir w).
  rewrite open_succeeds; [| reflexivity | exact Hn | exact Hd ]. simpl.
  fold f.
  match goal with |- context [ensureProgressDir ?x] => set (w1 := x) end.
  destruct (ensure_names w1) as [Hpd Hpn]. rewrite Hpd, Hpn.
  assert (Hrec : QFile.exists_ (progressDir w1) (progressName w1)
                   (fs (ensureProgressDir w1)) = false).
  { unfold QFile.exists_. rewrite ensure_read. unfold w1, progressDir, progressName.
    simpl. rewrite homePath_put, read_put_other by apply dirs_differ. exact Hp. }
  rewrite Hrec.
  unfold createProgressFile. rewrite locked_held by (now rewrite ensure_self).
  destruct w as [[] ? ? ?]. reflexivity.
Qed.

(** X2: when the destination opens and there is no progress record yet,
    [startDownload] never returns: it calls [createProgressFile] while it
    holds the mutex.  By then the destination file has been created empty and
    the progress directory made; no record is written, no request is sent, no
    signal is emitted and there is no reply. *)
Theorem start_without_record_blocks (w : World) :
  mutex (self w) = false ->
  QDir.exists_ (downloadsDir w) (fs w) = true ->
  QUrl.fileName (downloadUrl (self w)) <> EmptyString ->
  QFile.exists_ (progressDir w) (progressName w) (fs w) = false ->
  exists w',
    startDownload w = Deadlock w'
    /\ sent w' = sent w
    /\ emitted w' = emitted w
    /\ reply (self w') = reply (self w)
    /\ progressFile (self w') = progressFile (self w)
    /\ QFile.read (downloadsDir w) (QUrl.fileName (downloadUrl (self w))) (fs w')
       = Some EmptyString
    /\ QFile.exists_ (progressDir w) (progressName w) (fs w') = false
    /\ QDir.exists_ (progressDir w) (fs w') = true.
Proof.
  intros Hm Hd Hn Hp. rewrite start_blocks_explicit by assumption.
  eexists. split; [reflexivity|].
  match goal with |- context [ensureProgressDir ?x] => set (w1 := x) end.
  assert (Hpd : progressDir w1 = progressDir w).
  { unfold w1, progressDir. simpl. now rewrite homePath_put. }
  destruct (ensure_sent w1) as [Hs He].
  rewrite Hs, He, !ensure_self. unfold QFile.exists_. rewrite !ensure_read.
  rewrite <- Hpd at 3. rewrite ensure_dir.
  unfold w1. simpl.
  rewrite read_put_same by exact Hd.
  rewrite read_put_other by apply dirs_differ.
  repeat split. exact Hp.
Qed.

Lemma start_without_record_blocks_witness :
  let w := Scenario.freshOn Scenario.noRecord in
  mutex (self w) = false
  /\ exists w',
       startDownload w = Deadlock w'
       /\ sent w' = sent w
       /\ emitted w' = emitted w
       /\ reply (self w') = reply (self w)
       /\ progressFile (self w') = progressFile (self w)
       /\ QFile.read (downloadsDir w) (QUrl.fileName (downloadUrl (self w))) (fs w')
          = Some EmptyString
       /\ QFile.exists_ (progressDir w) (progressName w) (fs w') = false
       /\ QDir.exists_ (progressDir w) (fs w') = true.
Proof.
  split; [reflexivity|].
  apply (start_without_record_blocks (Scenario.freshOn Scenario.noRecord)).
  - reflexivity.
  - vm_compute; reflexivity.
  - vm_compute; discriminate.
  - vm_compute; reflexivity.
Defined.

(** ** A download without a progress record *)

Lemma start_step_without_record (w : World) :
  mutex (self w) = false ->
  QFile.exists_ (progressDir w) (progressName w) (fs w) = false ->
  match startDownload w with
  | Returned w' =>
      sent w' = sent w /\ fs w' = fs w
      /\ mutex (self w') = false
      /\ paused (self w') = paused (self w)
      /\ reply (self w') = reply (self w)
      /\ downloadUrl (self w') = downloadUrl (self w)
  | Deadlock w' | NullDeref w' => sent w' = sent w
  end.
Proof.
  intros Hm Hp.
  destruct (QDir.exists_ (downloadsDir w) (fs w)) eqn:Hd.
  - destruct (QUrl.fileName (downloadUrl (self w))) as [|c r] eqn:Hn.
    + unfold startDownload. rewrite locked_free by assumption. simpl.
      rewrite open_fails by (right; exact Hn). simpl. auto 10.
    + rewrite start_blocks_explicit; try assumption; [|rewrite Hn; discriminate].
      simpl.
      match goal with |- context [ensureProgressDir ?x] =>
        destruct (ensure_sent x) as [-> _] end.
      reflexivity.
  - unfold startDownload. rewrite locked_free by assumption. simpl.
    rewrite open_fails by (left; exact Hd). simpl. auto 10.
Qed.

Lemma writeReplyToFile_sent w : sent (world_of (writeReplyToFile w)) = sent w.
Proof.
  unfold writeReplyToFile. destruct (file (self w)); [|reflexivity].
  destruct (QFile.open_WriteOnly _ _) as [[f' fs']|]; [|reflexivity].
  destruct (reply (self w)); reflexivity.
Qed.

(** [onDownloadProgress] never returns. *)
Lemma progress_step (w : World) (b t : Z) :
  mutex (self w) = false ->
  match onDownloadProgress b t w with
  | Returned _ => False
  | Deadlock w' | NullDeref w' => sent w' = sent w
  end.
Proof.
  intros Hm. unfold onDownloadProgress. rewrite locked_free by assumption.
  set (w1 := with_self (set_downloadedBytes b) _).
  pose proof (writeReplyToFile_sent w1) as Hs.
  destruct (writeReplyToFile_counter w1) as [_ Hk].
  destruct (writeReplyToFile w1) as [w2|w2|w2]; simpl in *; try exact Hs.
  unfold updateProgressFile.
  destruct (0 <? t); (rewrite locked_held by exact Hk); simpl; exact Hs.
Qed.

Lemma idle_step op w :
  idleWithoutRecord w ->
  match perform op w with
  | Returned w' => idleWithoutRecord w' /\ sent w' = sent w
  | Deadlock w' | NullDeref w' => sent w' = sent w
  end.
Proof.
  intros (Hm & Hp & Hr & Hrec). destruct op; simpl.
  - pose proof (start_step_without_record w Hm Hrec) as H.
    destruct (startDownload w) as [w'|w'|w']; try exact H.
    destruct H as (Hs & Hfs & Hm' & Hp' & Hr' & Hu).
    split; [|exact Hs]. unfold idleWithoutRecord, progressDir, progressName.
    rewrite Hfs, Hu, Hm', Hp', Hr'. auto.
  - pose proof (progress_step w bytesReceived bytesTotal Hm) as H.
    destruct (onDownloadProgress _ _ w); [destruct H | exact H | exact H].
  - rewrite pause_no_reply by assumption. unfold idleWithoutRecord. auto.
  - rewrite resume_not_paused by assumption. unfold idleWithoutRecord. auto.
Qed.

Lemma idle_run ops : forall w,
  idleWithoutRecord w -> sent (world_of (run ops w)) = sent w.
Proof.
  induction ops as [|op ops IH]; intros w Hw; [reflexivity|].
  simpl. pose proof (idle_step op w Hw) as H.
  destruct (perform op w) as [w'|w'|w']; simpl; try exact H.
  destruct H as [Hw' Hs]. rewrite <- Hs. now apply IH.
Qed.

(** X4: a worker constructed for a URL that has no progress record on disk
    never sends a request, whatever start, pause, resume and progress calls
    follow: start either fails to open the destination or blocks in
    [createProgressFile]. *)
Theorem no_request_without_record (u : string) (disk : FileSystem) (ops : list Op) :
  QFile.exists_ (homePath disk +:+ "/progress") (QUrl.fileName u +:+ ".progress") disk
    = false ->
  sent (world_of (run ops {| self := Downloader.new u; fs := disk;
                             sent := []; emitted := [] |})) = [].
Proof.
  intros H. apply (idle_run ops).
  unfold idleWithoutRecord. simpl. auto.
Qed.

Lemma no_request_without_record_witness :
  QFile.exists_ (homePath Scenario.noRecord +:+ "/progress")
    (QUrl.fileName Scenario.exampleUrl +:+ ".progress") Scenario.noRecord = false
  /\ sent (world_of (run [Pause; Resume; Start; Start]
                       {| self := Downloader.new Scenario.exampleUrl;
                          fs := Scenario.noRecord; sent := []; emitted := [] |})) = [].
Proof.
  assert (H : QFile.exists_ (homePath Scenario.noRecord +:+ "/progress")
                (QUrl.fileName Scenario.exampleUrl +:+ ".progress") Scenario.noRecord
              = false) by (vm_compute; reflexivity).
  split; [exact H|].
  exact (no_request_without_record Scenario.exampleUrl Scenario.noRecord
           [Pause; Resume; Start; Start] H).
Defined.

(** ** [pauseDownload] *)

Lemma pause_already_paused w :
  mutex (self w) = false -> paused (self w) = true -> pauseDownload w = Returned w.
Proof.
  intros Hm Hp. unfold pauseDownload. rewrite locked_free by assumption.
  simpl. rewrite Hp. now rewrite release_acquire.
Qed.

(** The world [pauseDownload] returns when it acts. *)
Lemma pause_acts w r :
  mutex (self w) = false -> paused (self w) = false -> reply (self w) = Some r ->
  let r' := QNetworkReply.abort (QNetworkReply.disconnectSlots r) in
  let w1 := with_self (set_reply (Some r'))
              (with_self (set_paused true) (with_self (set_mutex true) w)) in
  pauseDownload w =
    Returned
      (with_self (set_mutex false)
         (emit (pauseResumeStatusChanged true)
            (default w1
               (rewriteProgressFile
                  (recordText (downloadUrl (self w))
                     (outOf (downloadedBytes (self w))
                        (QNetworkReply.contentLengthHeader r')) "paused")
                  w1)))).
Proof.
  intros Hm Hp Hr. unfold pauseDownload. rewrite locked_free by assumption.
  simpl. rewrite Hp, Hr. reflexivity.
Qed.

(** What the guarded rewrite of the progress file does to the worker. *)
Lemma rewriteProgressFile_self txt w :
  let w' := default w (rewriteProgressFile txt w) in
  mutex (self w') = mutex (self w) /\ paused (self w') = paused (self w)
  /\ reply (self w') = reply (self w) /\ sent w' = sent w /\ emitted w' = emitted w
  /\ downloadUrl (self w') = downloadUrl (self w)
  /\ file (self w') = file (self w).
Proof.
  unfold rewriteProgressFile. destruct (progressFile (self w)) as [pf|]; [|simpl; auto 10].
  destruct (QFile.open_WriteOnly pf (fs w)) as [[pf' fs']|]; simpl; auto 10.
Qed.

Lemma rewriteProgressFile_none txt w :
  progressFile (self w) = None -> default w (rewriteProgressFile txt w) = w.
Proof. intros H. unfold rewriteProgressFile. now rewrite H. Qed.

Lemma rewriteProgressFile_held txt w pf :
  progressFile (self w) = Some pf ->
  isOpen pf = false -> name pf <> EmptyString -> QDir.exists_ (dir pf) (fs w) = true ->
  let w' := default w (rewriteProgressFile txt w) in
  QFile.read (dir pf) (name pf) (fs w') = Some txt
  /\ homePath (fs w') = homePath (fs w)
  /\ progressFile (self w') = Some pf
  /\ QDir.exists_ (dir pf) (fs w') = true.
Proof.
  intros Hpf Ho Hn Hd. unfold rewriteProgressFile. rewrite Hpf.
  pose proof (open_succeeds pf (fs w) Ho Hn Hd) as E. rewrite E. simpl.
  destruct (open_then_write pf (fs w) _ _ txt E) as (Hr & Hh & _ & _).
  split; [exact Hr|]. split; [exact Hh|]. split.
  - unfold QFile.close. simpl. destruct pf; simpl in *; now subst.
  - apply dir_exists_spec. unfold QFile.read in Hr.
    destruct (dirs _ !! dir pf); [eauto | discriminate].
Qed.

Lemma pause_acts_flags w r :
  mutex (self w) = false -> paused (self w) = false -> reply (self w) = Some r ->
  exists w1, pauseDownload w = Returned w1
             /\ paused (self w1) = true /\ mutex (self w1) = false.
Proof.
  intros Hm Hp Hr. rewrite (pause_acts w r) by assumption.
  eexists. split; [reflexivity|].
  match goal with |- context [rewriteProgressFile ?t ?x] =>
    destruct (rewriteProgressFile_self t x) as (_ & Hp1 & _) end.
  simpl in *. now rewrite Hp1.
Qed.

(** X5: a pause that acts (a reply exists, not yet paused) sets the flag,
    disconnects both slots and aborts the reply, keeps the counter, sends
    nothing and emits [pauseResumeStatusChanged(true)].  With a handle on the
    progress file it replaces the record by the counter, the reply's
    Content-Length (0 when the header is missing) and the status paused;
    without a handle it leaves the disk as it is. *)
Theorem pause_aborts_and_records (w : World) (r : QNetworkReply) :
  mutex (self w) = false -> paused (self w) = false -> reply (self w) = Some r ->
  exists w',
    pauseDownload w = Returned w'
    /\ paused (self w') = true
    /\ mutex (self w') = false
    /\ reply (self w')
       = Some (QNetworkReply.abort (QNetworkReply.disconnectSlots r))
    /\ (progressConnected <$> reply (self w')) = Some 0%nat
    /\ downloadedBytes (self w') = downloadedBytes (self w)
    /\ sent w' = sent w
    /\ emitted w' = emitted w ++ [pauseResumeStatusChanged true]
    /\ (progressFile (self w) = None -> fs w' = fs w)
    /\ (forall pf,
          progressFile (self w) = Some pf -> isOpen pf = false ->
          name pf <> EmptyString -> QDir.exists_ (dir pf) (fs w) = true ->
          QFile.read (dir pf) (name pf) (fs w')
          = Some (recordText (downloadUrl (self w))
                    (outOf (downloadedBytes (self w))
                       (default 0 (contentLength r))) "paused")).
Proof.
  intros Hm Hp Hr. rewrite (pause_acts w r) by assumption.
  eexists. split; [reflexivity|].
  match goal with |- context [rewriteProgressFile ?t ?x] =>
    set (txt := t); set (w1 := x) end.
  destruct (rewriteProgressFile_self txt w1) as (Hm1 & Hp1 & Hr1 & Hs1 & He1 & _).
  pose proof (rewriteProgressFile_counter txt w1) as Hc1.
  simpl in *. rewrite Hp1, Hr1, Hs1, He1, Hc1.
  repeat split.
  - intros Hnone. now rewrite rewriteProgressFile_none.
  - intros pf Hpf Ho Hn Hd.
    now destruct (rewriteProgressFile_held txt w1 pf Hpf Ho Hn Hd) as (H & _).
Qed.

Lemma pause_aborts_and_records_witness :
  let w := Scenario.withHandle in
  let r := QNetworkReply.connectSlots QNetworkReply.fresh in
  mutex (self w) = false
  /\ exists w',
       pauseDownload w = Returned w'
       /\ paused (self w') = true
       /\ mutex (self w') = false
       /\ reply (self w')
          = Some (QNetworkReply.abort (QNetworkReply.disconnectSlots r))
       /\ (progressConnected <$> reply (self w')) = Some 0%nat
       /\ downloadedBytes (self w') = downloadedBytes (self w)
       /\ sent w' = sent w
       /\ emitted w' = emitted w ++ [pauseResumeStatusChanged true]
       /\ (progressFile (self w) = None -> fs w' = fs w)
       /\ (forall pf,
             progressFile (self w) = Some pf -> isOpen pf = false ->
             name pf <> EmptyString -> QDir.exists_ (dir pf) (fs w) = true ->
             QFile.read (dir pf) (name pf) (fs w')
             = Some (recordText (downloadUrl (self w))
                       (outOf (downloadedBytes (self w))
                          (default 0 (contentLength r))) "paused")).
Proof.
  split; [reflexivity|].
  apply (pause_aborts_and_records Scenario.withHandle
           (QNetworkReply.connectSlots QNetworkReply.fresh)); reflexivity.
Defined.

(** X6: with the mutex free [pauseDownload] always returns, and a second
    pause right after it changes nothing. *)
Theorem pause_twice_is_pause_once (w : World) :
  mutex (self w) = false ->
  exists w1, pauseDownload w = Returned w1 /\ pauseDownload w1 = Returned w1.
Proof.
  intros Hm.
  destruct (paused (self w)) eqn:Hp.
  { exists w. split; now apply pause_already_paused. }
  destruct (reply (self w)) as [r|] eqn:Hr.
  2:{ exists w. split; now apply pause_no_reply. }
  destruct (pause_acts_flags w r Hm Hp Hr) as (w1 & E & Hp1 & Hm1).
  exists w1. split; [exact E|]. now apply pause_already_paused.
Qed.

Lemma pause_twice_is_pause_once_witness :
  mutex (self Scenario.started) = false
  /\ exists w1, pauseDownload Scenario.started = Returned w1
                /\ pauseDownload w1 = Returned w1.
Proof.
  split; [reflexivity|].
  exact (pause_twice_is_pause_once Scenario.started eq_refl).
Defined.

(** ** The progress file *)

(** X10: called with the mutex free, [createProgressFile] makes the progress
    directory if need be and writes the initial record of the URL, count 0 and
    status in-progress, over whatever record was there; the worker then holds
    a closed handle on it.  Nothing is sent or emitted. *)
Theorem create_writes_initial_record (w : World) :
  mutex (self w) = false ->
  exists w',
    createProgressFile w = Returned w'
    /\ QFile.read (progressDir w) (progressName w) (fs w')
       = Some (recordText (downloadUrl (self w)) "0" "in-progress")
    /\ progressFile (self w')
       = Some {| dir := progressDir w; name := progressName w; isOpen := false |}
    /\ mutex (self w') = false
    /\ sent w' = sent w /\ emitted w' = emitted w.
Proof.
  intros Hm. unfold createProgressFile. rewrite locked_free by assumption.
  set (w0 := with_self (set_mutex true) w).
  assert (Hd : progressDir (ensureProgressDir w0) = progressDir w).
  { destruct (ensure_names w0) as [-> _]. reflexivity. }
  assert (Hn : progressName (ensureProgressDir w0) = progressName w).
  { destruct (ensure_names w0) as [_ ->]. reflexivity. }
  cbv zeta. rewrite Hd, Hn.
  set (pf := QFile.new (progressDir w) (progressName w)).
  assert (E : QFile.open_WriteOnly pf
                (fs (with_self (set_progressFile (Some pf)) (ensureProgressDir w0)))
              = Some ({| dir := dir pf; name := name pf; isOpen := true |},
                      QFile.put (dir pf) (name pf) EmptyString
                        (fs (ensureProgressDir w0)))).
  { apply open_succeeds; [reflexivity | apply progressName_not_empty |].
    simpl. apply (ensure_dir w0). }
  rewrite E.
  destruct (open_then_write pf _ _ _
              (recordText (downloadUrl (self (ensureProgressDir w0))) "0" "in-progress") E)
    as (Hr & _).
  eexists. split; [reflexivity|]. simpl in *.
  rewrite ensure_self in *. destruct (ensure_sent w0) as [Hs He].
  rewrite Hs, He. split; [exact Hr|]. auto.
Qed.

Lemma create_writes_initial_record_witness :
  let w := Scenario.freshOn Scenario.noRecord in
  mutex (self w) = false
  /\ exists w',
       createProgressFile w = Returned w'
       /\ QFile.read (progressDir w) (progressName w) (fs w')
          = Some (recordText (downloadUrl (self w)) "0" "in-progress")
       /\ progressFile (self w')
          = Some {| dir := progressDir w; name := progressName w; isOpen := false |}
       /\ mutex (self w') = false
       /\ sent w' = sent w /\ emitted w' = emitted w.
Proof.
  split; [reflexivity|].
  exact (create_writes_initial_record (Scenario.freshOn Scenario.noRecord) eq_refl).
Defined.

(** One call of [updateProgressFile] on a worker that holds its handle. *)
Lemma update_with_handle w pf b t :
  mutex (self w) = false ->
  progressFile (self w) = Some pf -> isOpen pf = false ->
  name pf <> EmptyString -> QDir.exists_ (dir pf) (fs w) = true ->
  exists w',
    updateProgressFile b t w = Returned w'
    /\ QFile.read (dir pf) (name pf) (fs w')
       = Some (recordText (downloadUrl (self w)) (outOf b t) "in-progress")
    /\ mutex (self w') = false
    /\ progressFile (self w') = Some pf
    /\ QDir.exists_ (dir pf) (fs w') = true
    /\ downloadUrl (self w') = downloadUrl (self w).
Proof.
  intros Hm Hpf Ho Hn Hd. unfold updateProgressFile. rewrite locked_free by assumption.
  eexists. split; [reflexivity|].
  set (w0 := with_self (set_mutex true) w).
  match goal with |- context [rewriteProgressFile ?x w0] => set (txt := x) end.
  destruct (rewriteProgressFile_held txt w0 pf Hpf Ho Hn Hd) as (Hr & _ & Hp' & Hd').
  destruct (rewriteProgressFile_self txt w0) as (_ & _ & _ & _ & _ & Hu & _).
  simpl in *. rewrite Hu. auto 10.
Qed.

(** X11: [updateProgressFile] replaces the record, it does not add to it:
    after two updates the record is that of the second.  Without a handle on
    the progress file an update returns and changes nothing. *)
Theorem update_replaces_record (w : World) (b1 t1 b2 t2 : Z) :
  mutex (self w) = false ->
  (progressFile (self w) = None -> updateProgressFile b1 t1 w = Returned w)
  /\ forall pf,
       progressFile (self w) = Some pf -> isOpen pf = false ->
       name pf <> EmptyString -> QDir.exists_ (dir pf) (fs w) = true ->
       exists w1 w2,
         updateProgressFile b1 t1 w = Returned w1
         /\ updateProgressFile b2 t2 w1 = Returned w2
         /\ QFile.read (dir pf) (name pf) (fs w2)
            = Some (recordText (downloadUrl (self w)) (outOf b2 t2) "in-progress").
Proof.
  intros Hm. split.
  - intros Hnone. unfold updateProgressFile. rewrite locked_free by assumption.
    rewrite rewriteProgressFile_none by exact Hnone. now rewrite release_acquire.
  - intros pf Hpf Ho Hn Hd.
    destruct (update_with_handle w pf b1 t1 Hm Hpf Ho Hn Hd)
      as (w1 & E1 & _ & Hm1 & Hpf1 & Hd1 & Hu1).
    destruct (update_with_handle w1 pf b2 t2 Hm1 Hpf1 Ho Hn Hd1)
      as (w2 & E2 & Hr2 & _).
    exists w1, w2. rewrite <- Hu1. auto.
Qed.

Lemma update_replaces_record_witness :
  let w := Scenario.withHandle in
  mutex (self w) = false
  /\ (progressFile (self w) = None -> updateProgressFile 400 1000 w = Returned w)
  /\ forall pf,
       progressFile (self w) = Some pf -> isOpen pf = false ->
       name pf <> EmptyString -> QDir.exists_ (dir pf) (fs w) = true ->
       exists w1 w2,
         updateProgressFile 400 1000 w = Returned w1
         /\ updateProgressFile 700 1000 w1 = Returned w2
         /\ QFile.read (dir pf) (name pf) (fs w2)
            = Some (recordText (downloadUrl (self w)) (outOf 700 1000) "in-progress").
Proof.
  split; [reflexivity|].
  exact (update_replaces_record Scenario.withHandle 400 1000 700 1000 eq_refl).
Defined.

(** ** [onDownloadFinished] *)

(** X19: a download that completes on a worker without a handle on the
    progress file (the record was there at the start) emits
    [downloadFinished] with the destination path, posts the deletion of the
    reply and leaves the disk, the record included, as it is. *)
Theorem completion_without_handle_keeps_disk (w : World) (r : QNetworkReply) (f : QFile) :
  mutex (self w) = false ->
  reply (self w) = Some r -> error r = None ->
  file (self w) = Some f -> isOpen f = true ->
  progressFile (self w) = None ->
  exists w',
    onDownloadFinished w = Returned w'
    /\ fs w' = fs w
    /\ emitted w' = emitted w ++ [downloadFinished (QFile.fileName f)]
    /\ reply (self w') = Some (QNetworkReply.deleteLater r)
    /\ sent w' = sent w
    /\ mutex (self w') = false.
Proof.
  intros Hm Hr He Hf Ho Hpf.
  unfold onDownloadFinished. rewrite locked_free by assumption.
  simpl. rewrite Hr, He.
  rewrite (writeReplyToFile_open_handle _ f) by assumption.
  simpl. unfold rewriteProgressFile. simpl. rewrite Hpf. simpl. rewrite ?Hf. simpl.
  rewrite ?Hr. eexists. split; [reflexivity|]. simpl. rewrite Hr. simpl. auto 10.
Qed.

Lemma completion_without_handle_keeps_disk_witness :
  let w := Scenario.started in
  mutex (self w) = false
  /\ exists w',
       onDownloadFinished w = Returned w'
       /\ fs w' = fs w
       /\ emitted w' = emitted w
            ++ [downloadFinished
                  (QFile.fileName {| dir := "/home/user/qt_downloads";
                                     name := "file.bin"; isOpen := true |})]
       /\ reply (self w') = Some (QNetworkReply.deleteLater
                                    (QNetworkReply.connectSlots QNetworkReply.fresh))
       /\ sent w' = sent w
       /\ mutex (self w') = false.
Proof.
  split; [reflexivity|].
  apply (completion_without_handle_keeps_disk Scenario.started
           (QNetworkReply.connectSlots QNetworkReply.fresh)
           {| dir := "/home/user/qt_downloads"; name := "file.bin"; isOpen := true |});
    reflexivity.
Defined.

(** ** Records and the recovery scan *)



(** X13: of the records the worker writes for a one-line URL that is not
    blank, the recovery test accepts those of pause and completion and
    rejects those of [createProgressFile] and [updateProgressFile]. *)
Theorem written_status_decides_recovery (u : string) (b t : Z) :
  QString.oneLine u = true ->
  QString.trimmed u <> EmptyString ->
  Main.resumable (Main.parseProgress (recordText u (outOf b t) "paused")) = true
  /\ Main.resumable (Main.parseProgress (recordText u (outOf b b) "completed")) = true
  /\ Main.resumable (Main.parseProgress (recordText u (outOf b t) "in-progress")) = false
  /\ Main.resumable (Main.parseProgress (recordText u "0" "in-progress")) = false.
Proof.
  intros Hu Hne.
  rewrite !parse_recordText by (try apply oneLine_outOf; auto).
  unfold Main.resumable. simpl Main.parsedUrl. simpl Main.status.
  destruct (QString.trimmed u); [congruence|]. repeat split.
Qed.

Lemma written_status_decides_recovery_witness :
  QString.oneLine Scenario.exampleUrl = true
  /\ QString.trimmed Scenario.exampleUrl <> EmptyString
  /\ Main.resumable (Main.parseProgress
       (recordText Scenario.exampleUrl (outOf 400 1000) "paused")) = true
  /\ Main.resumable (Main.parseProgress
       (recordText Scenario.exampleUrl (outOf 400 400) "completed")) = true
  /\ Main.resumable (Main.parseProgress
       (recordText Scenario.exampleUrl (outOf 400 1000) "in-progress")) = false
  /\ Main.resumable (Main.parseProgress
       (recordText Scenario.exampleUrl "0" "in-progress")) = false.
Proof.
  assert (H1 : QString.oneLine Scenario.exampleUrl = true) by reflexivity.
  assert (H2 : QString.trimmed Scenario.exampleUrl <> EmptyString)
    by (vm_compute; discriminate).
  split; [exact H1|]. split; [exact H2|].
  exact (written_status_decides_recovery Scenario.exampleUrl 400 1000 H1 H2).
Defined.



Lemma parsedUrl_without_url_line ls : forall p,
  (forall l, In l ls -> QString.startsWith l "Download URL:" = false) ->
  Main.parsedUrl (fold_left Main.parseLine ls p) = Main.parsedUrl p.
Proof.
  induction ls as [|l ls IH]; intros p H; [reflexivity|].
  simpl. rewrite IH by (intros l' Hl'; apply H; now right).
  unfold Main.parseLine. rewrite (H l) by now left.
  destruct (QString.startsWith l "Downloaded:"); [reflexivity|].
  destruct (QString.startsWith l "Status:"); reflexivity.
Qed.

(** X15: a progress file none of whose lines begins with [Download URL:]
    (an empty file, say) yields an empty URL and is never resubmitted: if
    that holds of every file in the progress directory, the scan submits
    nothing. *)
Theorem records_without_url_are_skipped (disk : FileSystem) :
  (forall n text,
     QFile.read (homePath disk +:+ "/progress") n disk = Some text ->
     forall l, In l (QString.lines text) ->
               QString.startsWith l "Download URL:" = false) ->
  Main.loadUnfinishedDownloads disk = [].
Proof.
  intros H.
  destruct (Main.loadUnfinishedDownloads disk) as [|u rest] eqn:E; [reflexivity|].
  exfalso.
  assert (Hin : In u (Main.loadUnfinishedDownloads disk)) by (rewrite E; now left).
  apply loadUnfinishedDownloads_spec in Hin as (n & text & _ & Hr & Hu & Hne & _).
  apply Hne. rewrite <- Hu. unfold Main.parseProgress.
  now rewrite parsedUrl_without_url_line by (apply (H n text Hr)).
Qed.

Lemma records_without_url_are_skipped_witness :
  let disk :=
    {| homePath := Scenario.home;
       dirs := <[ "/home/user/progress"%string :=
                    {[ "file.bin.progress"%string := "Status: paused"%string ]} ]> ∅ |} in
  Main.loadUnfinishedDownloads disk = [].
Proof.
  apply (records_without_url_are_skipped
           {| homePath := Scenario.home;
              dirs := <[ "/home/user/progress"%string :=
                           {[ "file.bin.progress"%string := "Status: paused"%string ]} ]> ∅ |}).
  intros n text Hr l Hl.
  change (Scenario.home +:+ "/progress") with "/home/user/progress"%string in Hr.
  unfold QFile.read in Hr. simpl dirs in Hr. rewrite lookup_insert_eq in Hr. simpl in Hr.
  apply lookup_singleton_Some in Hr as [_ <-].
  destruct Hl as [<-|[]]. reflexivity.
Defined.

(** ** The progress lambda *)

Lemma wrap_small (bits z : Z) :
  0 < bits -> - 2 ^ (bits - 1) <= z < 2 ^ (bits - 1) -> Main.wrap bits z = z.
Proof.
  intros Hb Hz. unfold Main.wrap.
  assert (E : 2 ^ bits = 2 * 2 ^ (bits - 1)).
  { replace bits with (Z.succ (bits - 1)) at 1 by lia. apply Z.pow_succ_r. lia. }
  rewrite Z.mod_small by lia. lia.
Qed.

(** X16: for a received count between 0 and a positive total (and small
    enough for [bytesReceived * 100] to fit 64 bits) the lambda hands the
    progress bar the integer percentage, a value from 0 to 100. *)
Theorem progress_value_is_percentage (b t : Z) :
  0 <= b <= t -> 0 < t -> b * 100 < 2 ^ 63 ->
  Main.progressValue b t = Some (b * 100 / t) /\ 0 <= b * 100 / t <= 100.
Proof.
  intros Hb Ht Hov.
  assert (Hq : 0 <= b * 100 / t <= 100).
  { split; [apply Z.div_pos; lia|]. apply Z.div_le_upper_bound; lia. }
  split; [|exact Hq].
  unfold Main.progressValue, Main.divide.
  destruct (t =? 0) eqn:E; [apply Z.eqb_eq in E; lia|].
  rewrite (wrap_small 64 (b * 100)) by (simpl; lia).
  rewrite Z.quot_div_nonneg by lia. simpl.
  rewrite (wrap_small 64) by (simpl; lia).
  now rewrite (wrap_small 32) by (simpl; lia).
Qed.

Lemma progress_value_is_percentage_witness :
  0 <= 400 <= 1000 /\ 0 < 1000 /\ 400 * 100 < 2 ^ 63
  /\ Main.progressValue 400 1000 = Some (400 * 100 / 1000)
  /\ 0 <= 400 * 100 / 1000 <= 100.
Proof.
  assert (H1 : 0 <= 400 <= 1000) by lia.
  assert (H2 : 0 < 1000) by lia.
  assert (H3 : 400 * 100 < 2 ^ 63) by reflexivity.
  split; [exact H1|]. split; [exact H2|]. split; [exact H3|].
  exact (progress_value_is_percentage 400 1000 H1 H2 H3).
Defined.

(** ** The input field *)

(** X17: every URL [onStartDownloadButtonClicked] passes on is trimmed
    (trimming it again changes nothing) and holds no comma. *)
Theorem submitted_urls_are_trimmed (inputUrls u : string) :
  In u (Main.onStartDownloadButtonClicked inputUrls) ->
  QString.trimmed u = u /\ QString.lacks "," u = true.
Proof.
  unfold Main.onStartDownloadButtonClicked, QString.split_comma_skipEmpty.
  intros H. apply in_map_iff in H as (p & <- & Hp).
  apply filter_In in Hp as [Hp _].
  split; [apply trimmed_idem|].
  apply lacks_trimmed. now apply (pieces_lack_comma inputUrls EmptyString p).
Qed.

Lemma submitted_urls_are_trimmed_witness :
  In "http://b/y.bin"%string
     (Main.onStartDownloadButtonClicked " http://a/x.bin ,, http://b/y.bin")
  /\ QString.trimmed "http://b/y.bin" = "http://b/y.bin"%string
  /\ QString.lacks "," "http://b/y.bin" = true.
Proof.
  assert (H : In "http://b/y.bin"%string
                (Main.onStartDownloadButtonClicked " http://a/x.bin ,, http://b/y.bin"))
    by (vm_compute; auto).
  split; [exact H|].
  exact (submitted_urls_are_trimmed " http://a/x.bin ,, http://b/y.bin" "http://b/y.bin" H).
Defined.

(** X18: an input without a comma that is not empty starts exactly one
    download, of the trimmed input, also when trimming leaves the empty URL
    (the empty parts are skipped before the trimming, not after). *)
Theorem single_url_input (inputUrls : string) :
  inputUrls <> EmptyString ->
  QString.lacks "," inputUrls = true ->
  Main.onStartDownloadButtonClicked inputUrls = [QString.trimmed inputUrls].
Proof.
  intros Hne Hc.
  unfold Main.onStartDownloadButtonClicked, QString.split_comma_skipEmpty.
  rewrite pieces_without_comma by exact Hc. rewrite append_empty_l.
  simpl. destruct inputUrls; [congruence | reflexivity].
Qed.

Lemma single_url_input_witness :
  "  "%string <> EmptyString
  /\ QString.lacks "," "  " = true
  /\ Main.onStartDownloadButtonClicked "  " = [QString.trimmed "  "].
Proof.
  assert (H1 : "  "%string <> EmptyString) by discriminate.
  assert (H2 : QString.lacks "," "  " = true) by reflexivity.
  split; [exact H1|]. split; [exact H2|].
  exact (single_url_input "  " H1 H2).
Defined.

(** ** Concrete instances of the general facts above *)

Lemma start_truncates_witness :
  let w := Scenario.freshOn Scenario.withPartialFile in
  QFile.read (downloadsDir w) (QUrl.fileName (downloadUrl (self w))) (fs w)
    = Some (Scenario.bytes 400)
  /\ mutex (self w) = false
  /\ let w' := world_of (startDownload w) in
     QFile.read (downloadsDir w) (QUrl.fileName (downloadUrl (self w))) (fs w')
       = Some EmptyString
     /\ downloadedBytes (self w') = 0
     /\ sent w' = sent w ++
                  [{| url := downloadUrl (self w);
                      rawHeaders := [("Range"%string, "bytes=0-"%string)] |}].
Proof.
  split; [vm_compute; reflexivity|]. split; [reflexivity|].
  apply (start_truncates (Scenario.freshOn Scenario.withPartialFile)).
  - reflexivity.
  - vm_compute; reflexivity.
  - vm_compute; discriminate.
  - vm_compute; reflexivity.
Defined.

Lemma resume_paused_deadlocks_witness :
  let w := Scenario.pausedAfterStart in
  mutex (self w) = false /\ paused (self w) = true
  /\ exists w', resumeDownload w = Deadlock w'
                /\ sent w' = sent w /\ fs w' = fs w /\ emitted w' = emitted w.
Proof.
  split; [reflexivity|]. split; [reflexivity|].
  exact (resume_paused_deadlocks Scenario.pausedAfterStart eq_refl eq_refl).
Defined.

Lemma progress_open_handle_witness :
  let w := Transport.receive (Scenario.bytes 400) (Some 1000) Scenario.started in
  mutex (self w) = false
  /\ let w' := world_of (onDownloadProgress 400 1000 w) in
     fs w' = fs w /\ downloadedBytes (self w') = 400.
Proof.
  split; [reflexivity|].
  apply (progress_open_handle
           (Transport.receive (Scenario.bytes 400) (Some 1000) Scenario.started)
           {| dir := "/home/user/qt_downloads"; name := "file.bin"; isOpen := true |}
           400 1000); reflexivity.
Defined.

Lemma finished_removes_held_record_witness :
  let w := Scenario.withHandle in
  QFile.exists_ "/home/user/progress" "file.bin.progress" (fs w) = true
  /\ exists w', onDownloadFinished w = Returned w'
                /\ QFile.exists_ "/home/user/progress" "file.bin.progress" (fs w') = false
                /\ progressFile (self w') = None
                /\ emitted w' = emitted w
                     ++ [downloadFinished "/home/user/qt_downloads/file.bin"].
Proof.
  split; [vm_compute; reflexivity|].
  apply (finished_removes_held_record Scenario.withHandle
           (QNetworkReply.connectSlots QNetworkReply.fresh)
           {| dir := "/home/user/qt_downloads"; name := "file.bin"; isOpen := true |}
           {| dir := "/home/user/progress"; name := "file.bin.progress";
              isOpen := false |});
    try reflexivity.
  discriminate.
Defined.

(** ** The counter in the runs of a worker *)

Lemma locked_returns_unlocked body w w' :
  locked body w = Returned w' -> mutex (self w') = false.
Proof.
  unfold locked. destruct (mutex (self w)); [discriminate|].
  destruct (body _); intros [= <-]. reflexivity.
Qed.

(** A start that returns leaves the counter at 0 if it was 0: either the
    destination did not open and the counter is untouched, or the size is
    read from the file the open has just emptied. *)
Lemma start_returned_counter w w' :
  downloadedBytes (self w) = 0 ->
  startDownload w = Returned w' ->
  downloadedBytes (self w') = 0.
Proof.
  intros H0. unfold startDownload, locked.
  destruct (mutex (self w)); [discriminate|]. simpl.
  destruct (QFile.open_WriteOnly _ _) as [[f' fs']|] eqn:E.
  2:{ intros [= <-]. exact H0. }
  destruct (open_then_write _ _ _ _ EmptyString E) as (_ & _ & -> & Hd).
  assert (Efs : fs' = QFile.put (downloadsDir w) (QUrl.fileName (downloadUrl (self w)))
                        EmptyString (fs w)).
  { revert E. unfold QFile.open_WriteOnly. simpl.
    destruct (QString.isEmpty _); [discriminate|].
    destruct (QDir.exists_ _ _); [|discriminate]. now intros [= <-]. }
  match goal with |- context [ensureProgressDir ?x] => set (w1 := x) end.
  destruct (QFile.exists_ _ _ _).
  - simpl. intros [= <-]. simpl.
    unfold QFile.size. simpl name. simpl dir. rewrite ensure_read.
    unfold w1. simpl fs. rewrite Efs, read_put_same by exact Hd. reflexivity.
  - unfold createProgressFile. rewrite locked_held by (now rewrite ensure_self).
    discriminate.
Qed.

(** Between two operations of a run that began at the constructor the
    counter is 0 and the mutex free. *)
Lemma perform_returned op w w' :
  downloadedBytes (self w) = 0 -> mutex (self w) = false ->
  perform op w = Returned w' ->
  downloadedBytes (self w') = 0 /\ mutex (self w') = false.
Proof.
  intros H0 Hm E. destruct op; simpl in E.
  - split; [now apply (start_returned_counter w) | now apply locked_returns_unlocked in E].
  - pose proof (progress_step w bytesReceived bytesTotal Hm) as H.
    rewrite E in H. destruct H.
  - split; [|now apply locked_returns_unlocked in E].
    pose proof (counter_pause w) as H. rewrite E in H. simpl in H. now rewrite H.
  - destruct (paused (self w)) eqn:Hp.
    + revert E. unfold resumeDownload. rewrite locked_free by assumption.
      simpl. rewrite Hp. unfold startDownload.
      rewrite locked_held by reflexivity. discriminate.
    + rewrite resume_not_paused in E by assumption. injection E as <-. auto.
Qed.

Lemma run_returned ops : forall w w',
  downloadedBytes (self w) = 0 -> mutex (self w) = false ->
  run ops w = Returned w' ->
  downloadedBytes (self w') = 0 /\ mutex (self w') = false.
Proof.
  induction ops as [|op ops IH]; intros w w' H0 Hm E; simpl in E.
  - injection E as <-. auto.
  - destruct (perform op w) as [w1|w1|w1] eqn:E1; simpl in E; try discriminate.
    destruct (perform_returned op w w1 H0 Hm E1) as [H1 Hm1].
    exact (IH w1 w' H1 Hm1 E).
Qed.

(** C6: for a worker constructed for any URL on any disk, in every state
    reached through start, progress update, pause and resume calls that
    returned, the counter is non-negative, and whichever of the four
    operations comes next (a progress update reporting a non-negative count,
    as Qt does) the counter is non-negative afterwards and not below what it
    was. *)
Theorem counter_never_decreases
    (u : string) (disk : FileSystem) (ops : list Op) (op : Op) (w : World) :
  reportsNonNegative op ->
  run ops {| self := Downloader.new u; fs := disk; sent := []; emitted := [] |}
    = Returned w ->
  0 <= downloadedBytes (self w)
  /\ 0 <= downloadedBytes (self (world_of (perform op w)))
  /\ downloadedBytes (self w) <= downloadedBytes (self (world_of (perform op w))).
Proof.
  intros Hop E.
  apply run_returned in E as [H0 _]; [|reflexivity|reflexivity].
  assert (H1 : 0 <= downloadedBytes (self (world_of (perform op w)))).
  { apply counter_perform; [exact Hop | lia]. }
  rewrite H0. split; [lia|]. split; exact H1.
Qed.

Lemma counter_never_decreases_witness :
  reportsNonNegative (Progress 400 1000)
  /\ run [Start; Pause]
       {| self := Downloader.new Scenario.exampleUrl; fs := Scenario.withRecord;
          sent := []; emitted := [] |}
     = Returned Scenario.pausedAfterStart
  /\ 0 <= downloadedBytes (self Scenario.pausedAfterStart)
  /\ 0 <= downloadedBytes
            (self (world_of (perform (Progress 400 1000) Scenario.pausedAfterStart)))
  /\ downloadedBytes (self Scenario.pausedAfterStart)
     <= downloadedBytes
          (self (world_of (perform (Progress 400 1000) Scenario.pausedAfterStart))).
Proof.
  assert (H1 : reportsNonNegative (Progress 400 1000)) by (simpl; lia).
  assert (H2 : run [Start; Pause]
                 {| self := Downloader.new Scenario.exampleUrl;
                    fs := Scenario.withRecord; sent := []; emitted := [] |}
               = Returned Scenario.pausedAfterStart) by (vm_compute; reflexivity).
  split; [exact H1|]. split; [exact H2|].
  exact (counter_never_decreases Scenario.exampleUrl Scenario.withRecord
           [Start; Pause] (Progress 400 1000) Scenario.pausedAfterStart H1 H2).
Defined.
